(** * bartrix-backend: the escrow project lifecycle

    A shallow embedding of [shared/schema.ts], [Server/storage.ts] and
    [Server/routes.ts], and the properties of the project lifecycle that
    hold of it.

    - The two JavaScript [Map]s of [MemStorage]: the project map is only ever
      read by key in the properties below and is a [gmap string Project.t];
      the activity map is read in iteration order (sorted, sliced), so it is
      kept as the insertion-ordered list of its entries.
    - [randomUUID()] and [new Date()] read the outside world.  The world
      gives the n-th identifier drawn and the n-th clock reading, and the
      server state counts how many of each were consumed.  Node's
      [path.extname], [toLowerCase] and [fs.existsSync] are part of the
      world too: every theorem holds whatever they compute.
    - Every [async] method is a function in the state monad [M]. *)

From stdpp Require Import gmap strings list pretty sorting.
From Stdlib Require Import ZArith.

Local Open Scope string_scope.
Local Open Scope Z_scope.

(** ** JavaScript values and the array primitives the server uses *)

Module Js.

(** A value found in [req.body] or [req.query]. *)
Inductive value :=
| undefined
| null
| boolean (b : bool)
| number (z : Z)
| str (s : string)
| object.

(** [v === s] for a string literal [s]. *)
Definition strictEq (v : value) (s : string) : bool :=
  match v with
  | str x => String.eqb x s
  | _ => false
  end.

(** [x === s] for a field [x] of type [string | null]. *)
Definition fieldEq (x : option string) (s : string) : bool :=
  match x with
  | Some v => String.eqb v s
  | None => false
  end.

(** Truthiness of a [string | null]: [null] and the empty string are
    falsy. *)
Definition truthy (x : option string) : bool :=
  match x with
  | Some EmptyString => false
  | Some _ => true
  | None => false
  end.

(** [x || d] on a [string | null]. *)
Definition orElse (x : option string) (d : string) : string :=
  match x with
  | Some EmptyString => d
  | Some s => s
  | None => d
  end.

(** [Map.prototype.set] on the insertion-ordered entries: an existing
    key keeps its place and gets the new value, a new key goes last. *)
Fixpoint mapSet {V : Type} (k : string) (v : V) (m : list (string * V))
  : list (string * V) :=
  match m with
  | [] => [(k, v)]
  | (k', v') :: m' =>
      if String.eqb k k' then (k', v) :: m' else (k', v') :: mapSet k v m'
  end.

(** [Array.from(map.values())]. *)
Definition mapValues {V : Type} (m : list (string * V)) : list V :=
  map snd m.

(** [Array.prototype.sort(cmp)] is stable (ECMAScript 2019); for a
    consistent comparator every stable sort gives the same array.  It is
    modelled by the stable insertion sort: [x] goes in front of the first
    element it does not have to follow ([cmp x y <= 0]). *)
Fixpoint insertBy {A : Type} (cmp : A → A → Z) (x : A) (l : list A) : list A :=
  match l with
  | [] => [x]
  | y :: l' => if 0 <? cmp x y then y :: insertBy cmp x l' else x :: l
  end.

Definition sort {A : Type} (cmp : A → A → Z) (l : list A) : list A :=
  foldr (insertBy cmp) [] l.

(** [arr.slice(0, end)] for an integer [end]: a negative [end] counts
    from the end of the array. *)
Definition sliceEnd (len : nat) (e : Z) : nat :=
  if e <? 0 then Z.to_nat (Z.max (Z.of_nat len + e) 0)
  else Z.to_nat (Z.min e (Z.of_nat len)).

Definition slice0 {A : Type} (e : Z) (l : list A) : list A :=
  take (sliceEnd (length l) e) l.

End Js.

(** ** shared/schema.ts *)

(** A row of [projects] ([typeof projects.$inferSelect]): columns without
    [notNull()] are [T | null]; [decimal] is a string; a [timestamp] is a
    [Date], here its [getTime()] in milliseconds. *)
Module Project.
Record t := {
  id : string;
  title : string;
  description : string;
  amount : string;
  status : string;
  buyerEmail : string;
  sellerEmail : option string;
  createdBy : string;
  deadline : option Z;
  fileName : option string;
  fileSize : option string;
  fileType : option string;
  filePath : option string;
  uploadedAt : option Z;
  paymentStatus : option string;
  buyerApproved : option string;
  sellerApproved : option string;
  currency : option string;
  createdAt : option Z;
  updatedAt : option Z
}.
End Project.

Module Activity.
Record t := {
  id : string;
  projectId : string;
  description : string;
  type : string;
  createdAt : option Z
}.
End Activity.

(** [z.infer<typeof insertProjectSchema>]: the columns kept by [omit], those
    with a default or without [notNull()] optional.  [None] is a key that is
    missing (or [null] where the column allows it): [createProject] reads
    every optional key through [??], which treats both alike. *)
Module InsertProject.
Record t := {
  title : string;
  description : string;
  amount : string;
  status : option string;
  buyerEmail : string;
  sellerEmail : option string;
  createdBy : string;
  paymentStatus : option string;
  buyerApproved : option string;
  sellerApproved : option string;
  currency : option string;
  deadline : option Z
}.
End InsertProject.

(** [insertProjectSchema.partial()]: every key may be missing ([None]).  A
    key of a nullable column that is present carries a [string | null]. *)
Module UpdateProject.
Record t := {
  title : option string;
  description : option string;
  amount : option string;
  status : option string;
  buyerEmail : option string;
  sellerEmail : option (option string);
  createdBy : option string;
  paymentStatus : option (option string);
  buyerApproved : option (option string);
  sellerApproved : option (option string);
  currency : option (option string);
  deadline : option (option Z)
}.

(** The object literal [{}]. *)
Definition empty : t :=
  {| title := None; description := None; amount := None; status := None;
     buyerEmail := None; sellerEmail := None; createdBy := None;
     paymentStatus := None; buyerApproved := None; sellerApproved := None;
     currency := None; deadline := None |}.
End UpdateProject.

Module InsertActivity.
Record t := {
  projectId : string;
  description : string;
  type : string
}.
End InsertActivity.


(** [req.file] as multer hands it to the handler; [path] is where
    [diskStorage] put the bytes. *)
Module MulterFile.
Record t := {
  originalname : string;
  mimetype : string;
  size : Z;
  path : string
}.
End MulterFile.

(** ** The outside world and the server state *)

(** What the server reads from its environment. *)
Record World := {
  uuidAt : nat → string;        (* [randomUUID()], the n-th draw *)
  clockAt : nat → Z;            (* [new Date()], the n-th reading *)
  existsSync : string → bool;   (* [fs.existsSync] *)
  extname : string → string;    (* [path.extname] *)
  toLowerCase : string → string (* [String.prototype.toLowerCase] *)
}.

(** The [MemStorage] singleton (its [users] map plays no part in the
    project lifecycle) and how much of the world was consumed. *)
Record Server := {
  projects : gmap string Project.t;
  activities : list (string * Activity.t);
  drawn : nat;
  ticks : nat
}.

Definition initial : Server :=
  {| projects := ∅; activities := []; drawn := 0%nat; ticks := 0%nat |}.

Definition M (A : Type) : Type := Server → A * Server.

Definition ret {A : Type} (a : A) : M A := λ s, (a, s).

Definition bind {A B : Type} (m : M A) (k : A → M B) : M B :=
  λ s, k (m s).1 (m s).2.

Notation "'let*' x ':=' m 'in' k" := (bind m (λ x, k))
  (at level 10, x name, m at level 100, k at level 200, only parsing).

(** ** Server/storage.ts *)

Module Storage.
Section WithWorld.
Variable W : World.

Definition randomUUID : M string := λ s,
  (uuidAt W (drawn s),
   {| projects := projects s; activities := activities s;
      drawn := S (drawn s); ticks := ticks s |}).

Definition newDate : M Z := λ s,
  (clockAt W (ticks s),
   {| projects := projects s; activities := activities s;
      drawn := drawn s; ticks := S (ticks s) |}).

(** [this.projects.set(id, project)]. *)
Definition setProject (id : string) (project : Project.t) : M unit := λ s,
  (tt,
   {| projects := <[id := project]> (projects s); activities := activities s;
      drawn := drawn s; ticks := ticks s |}).

(** [this.activities.set(id, activity)]. *)
Definition setActivity (id : string) (activity : Activity.t) : M unit := λ s,
  (tt,
   {| projects := projects s;
      activities := Js.mapSet id activity (activities s);
      drawn := drawn s; ticks := ticks s |}).

Definition getProject (id : string) : M (option Project.t) := λ s,
  (projects s !! id, s).

Definition createProject (insertProject : InsertProject.t) : M Project.t :=
  let* id := randomUUID in
  let* now := newDate in
  let project :=
    {| Project.id := id;
       Project.title := InsertProject.title insertProject;
       Project.description := InsertProject.description insertProject;
       Project.amount := InsertProject.amount insertProject;
       Project.status := default "created" (InsertProject.status insertProject);
       Project.buyerEmail := InsertProject.buyerEmail insertProject;
       Project.sellerEmail := InsertProject.sellerEmail insertProject;
       Project.createdBy := InsertProject.createdBy insertProject;
       Project.deadline := InsertProject.deadline insertProject;
       Project.fileName := None;
       Project.fileSize := None;
       Project.fileType := None;
       Project.filePath := None;
       Project.uploadedAt := None;
       Project.paymentStatus :=
         Some (default "pending" (InsertProject.paymentStatus insertProject));
       Project.buyerApproved :=
         Some (default "false" (InsertProject.buyerApproved insertProject));
       Project.sellerApproved :=
         Some (default "false" (InsertProject.sellerApproved insertProject));
       Project.currency :=
         Some (default "USD" (InsertProject.currency insertProject));
       Project.createdAt := Some now;
       Project.updatedAt := Some now |} in
  let* _ := setProject id project in
  ret project.

(** [{ ...project, ...updates, updatedAt: now }]: a key present in
    [updates] replaces the project's value. *)
Definition spread (project : Project.t) (updates : UpdateProject.t) (now : Z)
  : Project.t :=
  {| Project.id := Project.id project;
     Project.title :=
       default (Project.title project) (UpdateProject.title updates);
     Project.description :=
       default (Project.description project) (UpdateProject.description updates);
     Project.amount :=
       default (Project.amount project) (UpdateProject.amount updates);
     Project.status :=
       default (Project.status project) (UpdateProject.status updates);
     Project.buyerEmail :=
       default (Project.buyerEmail project) (UpdateProject.buyerEmail updates);
     Project.sellerEmail :=
       default (Project.sellerEmail project) (UpdateProject.sellerEmail updates);
     Project.createdBy :=
       default (Project.createdBy project) (UpdateProject.createdBy updates);
     Project.deadline :=
       default (Project.deadline project) (UpdateProject.deadline updates);
     Project.fileName := Project.fileName project;
     Project.fileSize := Project.fileSize project;
     Project.fileType := Project.fileType project;
     Project.filePath := Project.filePath project;
     Project.uploadedAt := Project.uploadedAt project;
     Project.paymentStatus :=
       default (Project.paymentStatus project)
         (UpdateProject.paymentStatus updates);
     Project.buyerApproved :=
       default (Project.buyerApproved project)
         (UpdateProject.buyerApproved updates);
     Project.sellerApproved :=
       default (Project.sellerApproved project)
         (UpdateProject.sellerApproved updates);
     Project.currency :=
       default (Project.currency project) (UpdateProject.currency updates);
     Project.createdAt := Project.createdAt project;
     Project.updatedAt := Some now |}.

Definition updateProject (id : string) (updates : UpdateProject.t)
  : M (option Project.t) :=
  let* project := getProject id in
  match project with
  | None => ret None
  | Some project =>
      let* now := newDate in
      let updatedProject := spread project updates now in
      let* _ := setProject id updatedProject in
      ret (Some updatedProject)
  end.

(** [a.createdAt?.getTime() || 0]. *)
Definition timeOrZero (a : Activity.t) : Z := default 0 (Activity.createdAt a).

(** The comparator [(a, b) => timeOrZero(b) - timeOrZero(a)]. *)
Definition newestFirst (a b : Activity.t) : Z := timeOrZero b - timeOrZero a.

Definition getActivitiesByProject (projectId : string) : M (list Activity.t) :=
  λ s,
  (Js.sort newestFirst
     (filter (λ activity, Activity.projectId activity = projectId)
        (Js.mapValues (activities s))),
   s).

(** [limit: number = 10]: [None] is a call without the argument. *)
Definition getRecentActivities (limit : option Z) : M (list Activity.t) :=
  λ s,
  (Js.slice0 (default 10 limit)
     (Js.sort newestFirst (Js.mapValues (activities s))),
   s).

Definition createActivity (insertActivity : InsertActivity.t) : M Activity.t :=
  let* id := randomUUID in
  let* now := newDate in
  let activity :=
    {| Activity.id := id;
       Activity.projectId := InsertActivity.projectId insertActivity;
       Activity.description := InsertActivity.description insertActivity;
       Activity.type := InsertActivity.type insertActivity;
       Activity.createdAt := Some now |} in
  let* _ := setActivity id activity in
  ret activity.

End WithWorld.
End Storage.

(** ** Server/routes.ts *)

(** What a handler sends: [res.status(n).json(...)] ([res.json] is status
    200), [res.download], or, when the multer middleware rejects the
    upload, the error it passes to [next] without the handler running. *)
Inductive Body :=
| JsonMessage (message : string)
| JsonProject (project : option Project.t)
| JsonFileInfo (fileName fileSize fileType : option string)
    (uploadedAt : option Z) (downloadAllowed : bool)
| JsonActivities (list : list Activity.t)
| Download (path name : string).

Inductive Response :=
| Respond (status : Z) (body : Body)
| NextError (message : string).

(** What [upload.single('file')] leaves for the handler. *)
Inductive Upload :=
| NoFile
| Rejected (message : string)
| Stored (file : MulterFile.t).

(** The outcomes of the interface ([Project | NotFound | ValidationError |
    Forbidden | InternalFailure]) as the server signals them, by the status
    code.  An error the upload middleware passes to [next] never reaches the
    handler or its [try]/[catch]; routes.ts registers no error-handling
    middleware, and an error that carries no status, as multer's and the
    filter's do, is answered 500. *)
Inductive Outcome :=
| Success
| ValidationError
| Forbidden
| NotFound
| InternalFailure.

Definition outcome (r : Response) : Outcome :=
  match r with
  | NextError _ => InternalFailure
  | Respond 200 _ | Respond 201 _ => Success
  | Respond 400 _ => ValidationError
  | Respond 403 _ => Forbidden
  | Respond 404 _ => NotFound
  | Respond _ _ => InternalFailure
  end.

(** The double quote of the template literals. *)
Definition dquote : string := String (Ascii.ascii_of_nat 34) EmptyString.

Module Routes.
Section WithWorld.
Variable W : World.

Definition allowedTypes : list string := [".stl"; ".step"; ".obj"; ".ply"].

(** [allowedTypes.includes(ext)] *)
Definition includes (l : list string) (ext : string) : bool :=
  existsb (String.eqb ext) l.

(** The [fileFilter] of the multer configuration: [true] is [cb(null, true)],
    [false] is [cb(new Error(...))]. *)
Definition fileFilter (originalname : string) : bool :=
  let ext := toLowerCase W (extname W originalname) in
  includes allowedTypes ext.

(** [limits.fileSize] *)
Definition fileSize : Z := 50 * 1024 * 1024.

(** The multer middleware with this configuration: the filter is asked when
    the file part starts; the transfer is cut, with the error
    LIMIT_FILE_SIZE, as soon as the bytes read reach [limits.fileSize], so a
    file of exactly that size is refused like a larger one; either error
    goes to [next]. *)
Definition uploadSingle (incoming : option MulterFile.t) : Upload :=
  match incoming with
  | None => NoFile
  | Some file =>
      if fileFilter (MulterFile.originalname file) then
        if fileSize <=? MulterFile.size file then Rejected "File too large"
        else Stored file
      else Rejected "Only STL, STEP, OBJ, and PLY files are allowed"
  end.

Definition notFound : Response :=
  Respond 404 (JsonMessage "Project not found").

(** POST /api/projects; [parsed] is what [insertProjectSchema.parse]
    returns, [None] when it throws. *)
Definition createProject (parsed : option InsertProject.t) : M Response :=
  match parsed with
  | None => ret (Respond 400 (JsonMessage "Invalid project data"))
  | Some validatedData =>
      let* project := Storage.createProject W validatedData in
      let* _ := Storage.createActivity W
        {| InsertActivity.projectId := Project.id project;
           InsertActivity.description :=
             "Project " +:+ dquote +:+ Project.title project +:+ dquote
               +:+ " created";
           InsertActivity.type := "created" |} in
      ret (Respond 201 (JsonProject (Some project)))
  end.

(** PATCH /api/projects/:id *)
Definition updateProject (id : string) (parsed : option UpdateProject.t)
  : M Response :=
  match parsed with
  | None => ret (Respond 400 (JsonMessage "Invalid update data"))
  | Some validatedData =>
      let* project := Storage.updateProject W id validatedData in
      match project with
      | None => ret notFound
      | Some project => ret (Respond 200 (JsonProject (Some project)))
      end
  end.

(** The five assignments to [projectWithFile].  [getProject] returned the
    object the map holds, so they change the stored record. *)
Definition assignFile (project : Project.t) (file : MulterFile.t) (now : Z)
  : Project.t :=
  {| Project.id := Project.id project;
     Project.title := Project.title project;
     Project.description := Project.description project;
     Project.amount := Project.amount project;
     Project.status := Project.status project;
     Project.buyerEmail := Project.buyerEmail project;
     Project.sellerEmail := Project.sellerEmail project;
     Project.createdBy := Project.createdBy project;
     Project.deadline := Project.deadline project;
     Project.fileName := Some (MulterFile.originalname file);
     Project.fileSize := Some (pretty (MulterFile.size file));
     Project.fileType := Some (MulterFile.mimetype file);
     Project.filePath := Some (MulterFile.path file);
     Project.uploadedAt := Some now;
     Project.paymentStatus := Project.paymentStatus project;
     Project.buyerApproved := Project.buyerApproved project;
     Project.sellerApproved := Project.sellerApproved project;
     Project.currency := Project.currency project;
     Project.createdAt := Project.createdAt project;
     Project.updatedAt := Project.updatedAt project |}.

(** POST /api/projects/:id/upload, behind [upload.single('file')]. *)
Definition uploadFile (id : string) (incoming : option MulterFile.t)
  : M Response :=
  match uploadSingle incoming with
  | Rejected message => ret (NextError message)
  | NoFile => ret (Respond 400 (JsonMessage "No file uploaded"))
  | Stored file =>
      let* project := Storage.getProject id in
      match project with
      | None => ret notFound
      | Some _ =>
          let* updatedProject := Storage.updateProject W id
            {| UpdateProject.title := None;
               UpdateProject.description := None;
               UpdateProject.amount := None;
               UpdateProject.status := Some "file_uploaded";
               UpdateProject.buyerEmail := None;
               UpdateProject.sellerEmail := None;
               UpdateProject.createdBy := None;
               UpdateProject.paymentStatus := None;
               UpdateProject.buyerApproved := None;
               UpdateProject.sellerApproved := None;
               UpdateProject.currency := None;
               UpdateProject.deadline := None |} in
          let* found := Storage.getProject id in
          let* projectWithFile :=
            match found with
            | None => ret None
            | Some stored =>
                let* now := Storage.newDate W in
                let projectWithFile := assignFile stored file now in
                let* _ := Storage.setProject id projectWithFile in
                ret (Some projectWithFile)
            end in
          let* _ := Storage.createActivity W
            {| InsertActivity.projectId := id;
               InsertActivity.description :=
                 "File " +:+ dquote +:+ MulterFile.originalname file
                   +:+ dquote +:+ " uploaded";
               InsertActivity.type := "upload" |} in
          ret (Respond 200 (JsonProject projectWithFile))
      end
  end.

(** The expression sent as [downloadAllowed]. *)
Definition downloadAllowed (project : Project.t) : bool :=
  Js.fieldEq (Project.buyerApproved project) "true"
  && Js.fieldEq (Project.sellerApproved project) "true".

(** GET /api/projects/:id/file; [download] is [req.query.download]. *)
Definition getFileInfo (id : string) (download : Js.value) : M Response :=
  let* project := Storage.getProject id in
  match project with
  | None => ret (Respond 404 (JsonMessage "File not found"))
  | Some project =>
      if negb (Js.truthy (Project.filePath project)) then
        ret (Respond 404 (JsonMessage "File not found"))
      else if Js.strictEq download "true"
              && (negb (Js.fieldEq (Project.buyerApproved project) "true")
                  || negb (Js.fieldEq (Project.sellerApproved project) "true"))
      then
        ret (Respond 403 (JsonMessage
          "Download not authorized. Project must be completed by both parties."))
      else if negb (existsSync W (default EmptyString (Project.filePath project)))
      then ret (Respond 404 (JsonMessage "File not found on disk"))
      else if Js.strictEq download "true" then
        ret (Respond 200
          (Download (default EmptyString (Project.filePath project))
             (Js.orElse (Project.fileName project) "model")))
      else
        ret (Respond 200
          (JsonFileInfo (Project.fileName project) (Project.fileSize project)
             (Project.fileType project) (Project.uploadedAt project)
             (downloadAllowed project)))
  end.

(** POST /api/projects/:id/deposit *)
Definition depositPayment (id : string) : M Response :=
  let* project := Storage.getProject id in
  match project with
  | None => ret notFound
  | Some project =>
      let* updatedProject := Storage.updateProject W id
        {| UpdateProject.title := None;
           UpdateProject.description := None;
           UpdateProject.amount := None;
           UpdateProject.status := Some "payment_deposited";
           UpdateProject.buyerEmail := None;
           UpdateProject.sellerEmail := None;
           UpdateProject.createdBy := None;
           UpdateProject.paymentStatus := Some (Some "held");
           UpdateProject.buyerApproved := None;
           UpdateProject.sellerApproved := None;
           UpdateProject.currency := None;
           UpdateProject.deadline := None |} in
      let* _ := Storage.createActivity W
        {| InsertActivity.projectId := id;
           InsertActivity.description :=
             "Escrow payment of $" +:+ Project.amount project +:+ " deposited";
           InsertActivity.type := "payment" |} in
      ret (Respond 200 (JsonProject updatedProject))
  end.

(** POST /api/projects/:id/buyer-action; [action] is [req.body.action]. *)
Definition buyerAction (id : string) (action : Js.value) : M Response :=
  let* project := Storage.getProject id in
  match project with
  | None => ret notFound
  | Some _ =>
      let approve := Js.strictEq action "approve" in
      let* updatedProject := Storage.updateProject W id
        {| UpdateProject.title := None;
           UpdateProject.description := None;
           UpdateProject.amount := None;
           UpdateProject.status :=
             Some (if approve then "under_review" else "revision_requested");
           UpdateProject.buyerEmail := None;
           UpdateProject.sellerEmail := None;
           UpdateProject.createdBy := None;
           UpdateProject.paymentStatus := None;
           UpdateProject.buyerApproved :=
             Some (Some (if approve then "true" else "revision_requested"));
           UpdateProject.sellerApproved := None;
           UpdateProject.currency := None;
           UpdateProject.deadline := None |} in
      let description :=
        if approve then "Buyer approved the project"
        else "Buyer requested revisions" in
      let* _ := Storage.createActivity W
        {| InsertActivity.projectId := id;
           InsertActivity.description := description;
           InsertActivity.type := "review" |} in
      ret (Respond 200 (JsonProject updatedProject))
  end.

(** POST /api/projects/:id/seller-approve *)
Definition sellerApprove (id : string) : M Response :=
  let* project := Storage.getProject id in
  match project with
  | None => ret notFound
  | Some project =>
      let shouldComplete := Js.fieldEq (Project.buyerApproved project) "true" in
      let* updatedProject := Storage.updateProject W id
        {| UpdateProject.title := None;
           UpdateProject.description := None;
           UpdateProject.amount := None;
           UpdateProject.status :=
             Some (if shouldComplete then "completed" else "under_review");
           UpdateProject.buyerEmail := None;
           UpdateProject.sellerEmail := None;
           UpdateProject.createdBy := None;
           UpdateProject.paymentStatus :=
             Some (if shouldComplete then Some "released"
                   else Project.paymentStatus project);
           UpdateProject.buyerApproved := None;
           UpdateProject.sellerApproved := Some (Some "true");
           UpdateProject.currency := None;
           UpdateProject.deadline := None |} in
      let description :=
        if shouldComplete then "Project completed - payment released to seller"
        else "Seller approved the project completion" in
      let* _ := Storage.createActivity W
        {| InsertActivity.projectId := id;
           InsertActivity.description := description;
           InsertActivity.type :=
             if shouldComplete then "completion" else "approval" |} in
      ret (Respond 200 (JsonProject updatedProject))
  end.

(** GET /api/projects/:id/activities *)
Definition listActivities (id : string) : M Response :=
  let* activities := Storage.getActivitiesByProject id in
  ret (Respond 200 (JsonActivities activities)).

(** GET /api/activities/recent; [parsed] is [parseInt(req.query.limit)],
    [None] for [NaN].  [parsed || 10] replaces [NaN] and [0]. *)
Definition listRecentActivities (parsed : option Z) : M Response :=
  let limit :=
    match parsed with
    | None => 10
    | Some 0 => 10
    | Some n => n
    end in
  let* activities := Storage.getRecentActivities (Some limit) in
  ret (Respond 200 (JsonActivities activities)).

End WithWorld.
End Routes.

(** ** Sequences of requests *)

(** The requests that can change the store. *)
Inductive Request :=
| PostProject (parsed : option InsertProject.t)
| PatchProject (id : string) (parsed : option UpdateProject.t)
| PostUpload (id : string) (incoming : option MulterFile.t)
| PostDeposit (id : string)
| PostBuyerAction (id : string) (action : Js.value)
| PostSellerApprove (id : string).

Definition handle (W : World) (request : Request) : M Response :=
  match request with
  | PostProject parsed => Routes.createProject W parsed
  | PatchProject id parsed => Routes.updateProject W id parsed
  | PostUpload id incoming => Routes.uploadFile W id incoming
  | PostDeposit id => Routes.depositPayment W id
  | PostBuyerAction id action => Routes.buyerAction W id action
  | PostSellerApprove id => Routes.sellerApprove W id
  end.

(** The server after a sequence of requests, served one at a time. *)
Definition serve (W : World) (requests : list Request) (s : Server) : Server :=
  foldl (λ s request, (handle W request s).2) s requests.

(** ** A concrete world, to run the server on examples *)

Module Demo.

Definition uuid (n : nat) : string := "uuid-" +:+ pretty n.

(** A clock that advances one second per reading. *)
Definition clock (n : nat) : Z := 1000 * Z.of_nat n.

(** The text from the last dot on, if any. *)
Fixpoint fromLastDot (s : string) : option string :=
  match s with
  | EmptyString => None
  | String c s' =>
      match fromLastDot s' with
      | Some e => Some e
      | None => if Ascii.eqb c (Ascii.ascii_of_nat 46) then Some s else None
      end
  end.

(** [path.extname] on a file name without directory part: the text from
    the last dot on, nothing when that dot is the first character. *)
Definition lastExt (s : string) : string :=
  match s with
  | EmptyString => EmptyString
  | String c s' => default EmptyString (fromLastDot s')
  end.

Definition lowerAscii (c : Ascii.ascii) : Ascii.ascii :=
  let n := Ascii.nat_of_ascii c in
  if (65 <=? n)%nat && (n <=? 90)%nat then Ascii.ascii_of_nat (n + 32) else c.

(** [toLowerCase] on ASCII text. *)
Fixpoint lower (s : string) : string :=
  match s with
  | EmptyString => EmptyString
  | String c s' => String (lowerAscii c) (lower s')
  end.

(** No file is on disk. *)
Definition W : World :=
  {| uuidAt := uuid; clockAt := clock;
     existsSync := λ _, false;
     extname := lastExt; toLowerCase := lower |}.

(** The world with a given set of files on disk. *)
Definition withFiles (files : list string) : World :=
  {| uuidAt := uuid; clockAt := clock;
     existsSync := λ path, bool_decide (path ∈ files);
     extname := lastExt; toLowerCase := lower |}.

Definition bracket : InsertProject.t :=
  {| InsertProject.title := "Bracket";
     InsertProject.description := "A wall bracket";
     InsertProject.amount := "100.00";
     InsertProject.status := None;
     InsertProject.buyerEmail := "b@x.com";
     InsertProject.sellerEmail := None;
     InsertProject.createdBy := "buyer";
     InsertProject.paymentStatus := None;
     InsertProject.buyerApproved := None;
     InsertProject.sellerApproved := None;
     InsertProject.currency := None;
     InsertProject.deadline := None |}.

(** A create payload that brings its own workflow fields. *)
Definition prepaid : InsertProject.t :=
  {| InsertProject.title := "Gear";
     InsertProject.description := "A spur gear";
     InsertProject.amount := "40.00";
     InsertProject.status := Some "completed";
     InsertProject.buyerEmail := "b@x.com";
     InsertProject.sellerEmail := Some "s@x.com";
     InsertProject.createdBy := "seller";
     InsertProject.paymentStatus := Some "released";
     InsertProject.buyerApproved := Some "true";
     InsertProject.sellerApproved := Some "true";
     InsertProject.currency := Some "EUR";
     InsertProject.deadline := None |}.

(** A stored project with an uploaded file, in a given approval state. *)
Definition project (buyerApproved sellerApproved paymentStatus : string)
  : Project.t :=
  {| Project.id := "p1";
     Project.title := "Bracket";
     Project.description := "A wall bracket";
     Project.amount := "100.00";
     Project.status := "under_review";
     Project.buyerEmail := "b@x.com";
     Project.sellerEmail := None;
     Project.createdBy := "buyer";
     Project.deadline := None;
     Project.fileName := Some "part.stl";
     Project.fileSize := Some "2097152";
     Project.fileType := Some "model/stl";
     Project.filePath := Some "/srv/uploads/file-1-2.stl";
     Project.uploadedAt := Some 5000;
     Project.paymentStatus := Some paymentStatus;
     Project.buyerApproved := Some buyerApproved;
     Project.sellerApproved := Some sellerApproved;
     Project.currency := Some "USD";
     Project.createdAt := Some 0;
     Project.updatedAt := Some 5000 |}.

(** A server that holds just this project and no activity. *)
Definition store (p : Project.t) : Server :=
  {| projects := {[ Project.id p := p ]}; activities := [];
     drawn := 7%nat; ticks := 7%nat |}.

(** Creation, buyer approval, seller approval: the project is completed and
    the payment released. *)
Definition completedRun : list Request :=
  [PostProject (Some bracket);
   PostBuyerAction "uuid-0" (Js.str "approve");
   PostSellerApprove "uuid-0"].

Definition notesTxt : MulterFile.t :=
  {| MulterFile.originalname := "notes.txt";
     MulterFile.mimetype := "text/plain";
     MulterFile.size := 12;
     MulterFile.path := "/srv/uploads/file-3-4.txt" |}.

Definition partStl : MulterFile.t :=
  {| MulterFile.originalname := "part.stl";
     MulterFile.mimetype := "model/stl";
     MulterFile.size := 2 * 1024 * 1024;
     MulterFile.path := "/srv/uploads/file-1-2.stl" |}.

End Demo.


(** ** The rest of the storage and of the routes *)

(** More of JavaScript: truthiness of a request value, [===] between a
    field and a request value, [Map.prototype.get] on the entries of a
    map. *)
Module JsValue.

(** [if (v)]. *)
Definition isTruthy (v : Js.value) : bool :=
  match v with
  | Js.undefined | Js.null => false
  | Js.boolean b => b
  | Js.number z => negb (z =? 0)
  | Js.str EmptyString => false
  | Js.str _ => true
  | Js.object => true
  end.

(** [x === v] for a field [x] of type [string]. *)
Definition eqString (x : string) (v : Js.value) : bool :=
  match v with
  | Js.str s => String.eqb x s
  | _ => false
  end.

(** [x === v] for a field [x] of type [string | null]. *)
Definition eqNullable (x : option string) (v : Js.value) : bool :=
  match x, v with
  | Some a, Js.str s => String.eqb a s
  | None, Js.null => true
  | _, _ => false
  end.

(** [map.get(k)]. *)
Fixpoint mapGet {V : Type} (k : string) (m : list (string * V)) : option V :=
  match m with
  | [] => None
  | (k', v) :: m' => if String.eqb k k' then Some v else mapGet k m'
  end.

End JsValue.

(** A row of [users] and [z.infer<typeof insertUserSchema>]. *)
Module User.
Record t := {
  id : string;
  username : string;
  password : string
}.
End User.

Module InsertUser.
Record t := {
  username : string;
  password : string
}.
End InsertUser.

(** The [users] map of [MemStorage], with the number of identifiers its
    methods have drawn.  No route uses it, and its methods touch nothing
    else of the storage. *)
Module UserStore.
Record t := {
  users : list (string * User.t);
  drawn : nat
}.

Definition empty : t := {| users := []; drawn := 0%nat |}.
End UserStore.

Module Users.
Section WithWorld.
Variable W : World.

Definition getUser (id : string) (s : UserStore.t) : option User.t :=
  JsValue.mapGet id (UserStore.users s).

(** [Array.from(this.users.values()).find(...)]: the first match in the
    order of insertion. *)
Definition getUserByUsername (username : string) (s : UserStore.t)
  : option User.t :=
  List.find (λ user, String.eqb (User.username user) username)
    (Js.mapValues (UserStore.users s)).

Definition createUser (insertUser : InsertUser.t) (s : UserStore.t)
  : User.t * UserStore.t :=
  let id := uuidAt W (UserStore.drawn s) in
  let user :=
    {| User.id := id;
       User.username := InsertUser.username insertUser;
       User.password := InsertUser.password insertUser |} in
  (user,
   {| UserStore.users := Js.mapSet id user (UserStore.users s);
      UserStore.drawn := S (UserStore.drawn s) |}).

End WithWorld.
End Users.

(** What GET /api/projects sends: a status and an array of projects. *)
Inductive ListResponse :=
| JsonProjects (status : Z) (list : list Project.t).

(** The reading side of the project map.  [Array.from(map.values())] lists
    the values in the order the keys were first set; the [gmap] does not
    keep that order, so the two listing methods take it as the argument
    [order], the keys of the map as the [Map] iterates them. *)
Module ProjectQueries.

Definition getAllProjects (order : list string) : M (list Project.t) := λ s,
  (omap (λ id, projects s !! id) order, s).

(** [email] is declared a string; the route hands over whatever
    [req.query.email] is. *)
Definition getProjectsByEmail (order : list string) (email : Js.value)
  : M (list Project.t) := λ s,
  (List.filter
     (λ project,
        JsValue.eqString (Project.buyerEmail project) email
        || JsValue.eqNullable (Project.sellerEmail project) email)
     (omap (λ id, projects s !! id) order),
   s).

(** GET /api/projects; [email] is [req.query.email]. *)
Definition listProjects (order : list string) (email : Js.value)
  : M ListResponse :=
  if JsValue.isTruthy email then
    let* projects := getProjectsByEmail order email in
    ret (JsonProjects 200 projects)
  else
    let* projects := getAllProjects order in
    ret (JsonProjects 200 projects).

(** GET /api/projects/:id *)
Definition getProject (id : string) : M Response :=
  let* project := Storage.getProject id in
  match project with
  | None => ret (Respond 404 (JsonMessage "Project not found"))
  | Some project => ret (Respond 200 (JsonProject (Some project)))
  end.

End ProjectQueries.

(** More sample data. *)
Module Sample.

Definition alice : InsertUser.t :=
  {| InsertUser.username := "alice"; InsertUser.password := "pw1" |}.

Definition alice2 : InsertUser.t :=
  {| InsertUser.username := "alice"; InsertUser.password := "pw2" |}.

(** A model file of exactly [limits.fileSize] bytes, and one byte less. *)
Definition atLimit : MulterFile.t :=
  {| MulterFile.originalname := "big.stl";
     MulterFile.mimetype := "model/stl";
     MulterFile.size := 52428800;
     MulterFile.path := "/srv/uploads/file-5-6.stl" |}.

Definition underLimit : MulterFile.t :=
  {| MulterFile.originalname := "big.stl";
     MulterFile.mimetype := "model/stl";
     MulterFile.size := 52428799;
     MulterFile.path := "/srv/uploads/file-5-6.stl" |}.

(** The server after one creation. *)
Definition created : Server :=
  serve Demo.W [PostProject (Some Demo.bracket)] initial.

(** The server after a creation and a deposit. *)
Definition deposited : Server :=
  serve Demo.W [PostProject (Some Demo.bracket); PostDeposit "uuid-0"] initial.

End Sample.

(** ** Vocabulary of the properties *)

(** [a] may stand before [b] in a listing that is newest first.  The time
    of an activity is the one the comparator reads: [createdAt], and 0 for
    an activity without one. *)
Definition notOlder (a b : Activity.t) : Prop :=
  Storage.timeOrZero b ≤ Storage.timeOrZero a.

(** A change of [paymentStatus] against the order pending, held,
    released. *)
Definition backward (old new : option string) : Prop :=
  (old = Some "released" ∧ new = Some "held")
  ∨ (old = Some "held" ∧ new = Some "pending")
  ∨ (old = Some "released" ∧ new = Some "pending").

(** The two assumptions on the world: [randomUUID] never returns the same
    identifier twice, and the clock never goes back. *)
Definition neverRepeats (W : World) : Prop :=
  ∀ i j : nat, uuidAt W i = uuidAt W j → i = j.

Definition neverGoesBack (W : World) : Prop :=
  ∀ i j : nat, (i ≤ j)%nat → clockAt W i ≤ clockAt W j.

(** What holds of the store after any sequence of requests: a project is
    stored under its own id, which is some identifier drawn earlier, and its
    two time stamps are clock readings taken earlier, [createdAt] no later
    than [updatedAt]. *)
Definition wellFormed (W : World) (s : Server) : Prop :=
  ∀ (k : string) (p : Project.t), projects s !! k = Some p →
    Project.id p = k ∧
    (∃ i : nat, (i < drawn s)%nat ∧ k = uuidAt W i) ∧
    ∃ m n : nat, (m ≤ n < ticks s)%nat ∧
      Project.createdAt p = Some (clockAt W m) ∧
      Project.updatedAt p = Some (clockAt W n).

(** Every key of the activity map is an identifier drawn earlier. *)
Definition activitiesDrawn (W : World) (s : Server) : Prop :=
  ∀ k : string, k ∈ (activities s).*1 →
    ∃ i : nat, (i < drawn s)%nat ∧ k = uuidAt W i.

(** The states the server can be in. *)
Definition reachable (W : World) (s : Server) : Prop :=
  ∃ requests : list Request, s = serve W requests initial.

(** What holds of the activity log after any sequence of requests: an
    activity is stored under its own id, has a creation time, and refers to
    a project that is in the store. *)
Definition logSound (s : Server) : Prop :=
  ∀ (k : string) (a : Activity.t), (k, a) ∈ activities s →
    Activity.id a = k ∧
    is_Some (Activity.createdAt a) ∧
    is_Some (projects s !! Activity.projectId a).

(** Every activity was stamped with a clock reading taken earlier. *)
Definition logTimed (W : World) (s : Server) : Prop :=
  ∀ a : Activity.t, a ∈ Js.mapValues (activities s) →
    ∃ n : nat, (n < ticks s)%nat ∧ Activity.createdAt a = Some (clockAt W n).

(** [a] was created no later than [b]. *)
Definition notNewer (a b : Activity.t) : Prop :=
  Storage.timeOrZero a ≤ Storage.timeOrZero b.

(** [order] lists the keys of the project map. *)
Definition enumerates (order : list string) (s : Server) : Prop :=
  ∀ k : string, k ∈ order ↔ is_Some (projects s !! k).

(** * Properties *)

(** ** Two runs of the server *)

(** Creation, deposit, upload, buyer approval, seller approval: the project
    is completed, the payment released, and the log lists the five events,
    newest first. *)
Example full_run_completes :
  (λ p, (Project.status p, Project.paymentStatus p, Project.buyerApproved p,
         Project.sellerApproved p, Project.fileName p))
    <$> projects (serve Demo.W
          [PostProject (Some Demo.bracket);
           PostDeposit "uuid-0";
           PostUpload "uuid-0" (Some Demo.partStl);
           PostBuyerAction "uuid-0" (Js.str "approve");
           PostSellerApprove "uuid-0"] initial) !! "uuid-0"
  = Some ("completed", Some "released", Some "true", Some "true",
          Some "part.stl").
Proof. by vm_compute. Qed.

Example full_run_log :
  Activity.type
    <$> (Storage.getActivitiesByProject "uuid-0"
           (serve Demo.W
              [PostProject (Some Demo.bracket);
               PostDeposit "uuid-0";
               PostUpload "uuid-0" (Some Demo.partStl);
               PostBuyerAction "uuid-0" (Js.str "approve");
               PostSellerApprove "uuid-0"] initial)).1
  = ["completion"; "review"; "upload"; "payment"; "created"].
Proof. by vm_compute. Qed.

(** The seller approves first: the project stays under review and the
    payment stays where it was. *)
Example seller_first_stays_under_review :
  (λ p, (Project.status p, Project.paymentStatus p, Project.sellerApproved p))
    <$> projects (serve Demo.W
          [PostProject (Some Demo.bracket);
           PostSellerApprove "uuid-0"] initial) !! "uuid-0"
  = Some ("under_review", Some "pending", Some "true").
Proof. by vm_compute. Qed.

(** The file filter on a few names. *)
Example fileFilter_examples :
  Routes.fileFilter Demo.W "part.stl" = true ∧
  Routes.fileFilter Demo.W "PART.STEP" = true ∧
  Routes.fileFilter Demo.W "notes.txt" = false ∧
  Routes.fileFilter Demo.W "stl" = false.
Proof. by vm_compute. Qed.

(** The size limit at its edge: a file of exactly 50 MiB is refused, one
    byte less is let through. *)
Example size_limit_examples :
  Routes.uploadSingle Demo.W (Some Sample.atLimit) = Rejected "File too large" ∧
  Routes.uploadSingle Demo.W (Some Sample.underLimit)
    = Stored Sample.underLimit ∧
  (handle Demo.W (PostUpload "uuid-0" (Some Sample.atLimit)) Sample.created).2
    = Sample.created.
Proof. by vm_compute. Qed.

(** Ties keep the order of insertion; a negative end counts from the back. *)
Example sort_examples :
  Js.sort (λ a b : Z * string, b.1 - a.1)
    [(1, "a"); (3, "b"); (1, "c"); (3, "d"); (2, "e")]
    = [(3, "b"); (3, "d"); (2, "e"); (1, "a"); (1, "c")] ∧
  Js.slice0 2 [10; 20; 30] = [10; 20] ∧
  Js.slice0 5 [10; 20; 30] = [10; 20; 30] ∧
  Js.slice0 (-1) [10; 20; 30] = [10; 20] ∧
  Js.slice0 (-7) [10; 20; 30] = [].
Proof. by vm_compute. Qed.

(** ** The storage layer, equation by equation *)

Section StorageFacts.
Context (W : World).

Lemma mapSet_fresh {V : Type} (k : string) (v : V) (m : list (string * V)) :
  k ∉ m.*1 → Js.mapSet k v m = (m ++ [(k, v)])%list.
Proof.
  induction m as [|[k' v'] m IH]; intros Hk; cbn in *; [done|].
  apply not_elem_of_cons in Hk as [Hne Hk].
  destruct (String.eqb_spec k k') as [->|_]; [done|].
  by rewrite IH.
Qed.

Lemma updateProject_missing (id : string) (u : UpdateProject.t) (s : Server) :
  projects s !! id = None → Storage.updateProject W id u s = (None, s).
Proof.
  intros H. unfold Storage.updateProject, bind, Storage.getProject; cbn.
  by rewrite H.
Qed.

Lemma updateProject_found (id : string) (u : UpdateProject.t) (s : Server)
    (p : Project.t) :
  projects s !! id = Some p →
  Storage.updateProject W id u s =
    (Some (Storage.spread p u (clockAt W (ticks s))),
     {| projects := <[id := Storage.spread p u (clockAt W (ticks s))]> (projects s);
        activities := activities s;
        drawn := drawn s;
        ticks := S (ticks s) |}).
Proof.
  intros H. unfold Storage.updateProject, bind, Storage.getProject; cbn.
  by rewrite H.
Qed.

Lemma createActivity_eq (a : InsertActivity.t) (s : Server) :
  Storage.createActivity W a s =
    let activity :=
      {| Activity.id := uuidAt W (drawn s);
         Activity.projectId := InsertActivity.projectId a;
         Activity.description := InsertActivity.description a;
         Activity.type := InsertActivity.type a;
         Activity.createdAt := Some (clockAt W (ticks s)) |} in
    (activity,
     {| projects := projects s;
        activities := Js.mapSet (uuidAt W (drawn s)) activity (activities s);
        drawn := S (drawn s);
        ticks := S (ticks s) |}).
Proof. reflexivity. Qed.

End StorageFacts.

(** ** Seller approval, buyer action *)

Section Approvals.
Context (W : World).

(** C2. For an existing project, [sellerApprove] sets [sellerApproved] to
    "true"; when [buyerApproved] was "true" it also sets [status] to
    "completed" and [paymentStatus] to "released" and appends a "completion"
    activity; otherwise it sets [status] to "under_review", leaves
    [paymentStatus] as it was and appends an "approval" activity.  (The
    activity is appended when the identifier drawn for it is new.) *)
Theorem sellerApprove_effect (s : Server) (id : string) (p : Project.t) :
  projects s !! id = Some p →
  uuidAt W (drawn s) ∉ (activities s).*1 →
  ∃ (p' : Project.t) (a : Activity.t),
    (Routes.sellerApprove W id s).1 = Respond 200 (JsonProject (Some p')) ∧
    projects (Routes.sellerApprove W id s).2 !! id = Some p' ∧
    activities (Routes.sellerApprove W id s).2
      = (activities s ++ [(uuidAt W (drawn s), a)])%list ∧
    Activity.projectId a = id ∧
    Project.sellerApproved p' = Some "true" ∧
    (Project.buyerApproved p = Some "true" →
       Project.status p' = "completed" ∧
       Project.paymentStatus p' = Some "released" ∧
       Activity.type a = "completion") ∧
    (Project.buyerApproved p ≠ Some "true" →
       Project.status p' = "under_review" ∧
       Project.paymentStatus p' = Project.paymentStatus p ∧
       Activity.type a = "approval").
Proof.
  intros Hp Hfresh.
  unfold Routes.sellerApprove, bind, ret, Storage.getProject; cbn.
  rewrite Hp; cbn. rewrite (updateProject_found W _ _ _ _ Hp); cbn.
  rewrite (mapSet_fresh _ _ _ Hfresh).
  eexists _, _. split_and!; try reflexivity.
  - apply lookup_insert_eq.
  - intros ->; cbn. done.
  - intros Hne. destruct (Project.buyerApproved p) as [b|] eqn:Hb; cbn; [|done].
    destruct (String.eqb_spec b "true") as [->|_]; [done|]. done.
Qed.

(** C4. For an existing project the seller has already approved,
    [buyerAction] with "approve" sets [buyerApproved] to "true" and [status]
    to "under_review", not "completed", and leaves [paymentStatus] and
    [sellerApproved] as they were; whatever the action, [buyerAction] never
    produces the status "completed". *)
Theorem buyerAction_approve_no_completion (s : Server) (id : string)
    (p : Project.t) :
  projects s !! id = Some p →
  Project.sellerApproved p = Some "true" →
  (∃ p' : Project.t,
    (Routes.buyerAction W id (Js.str "approve") s).1
      = Respond 200 (JsonProject (Some p')) ∧
    projects (Routes.buyerAction W id (Js.str "approve") s).2 !! id = Some p' ∧
    Project.buyerApproved p' = Some "true" ∧
    Project.sellerApproved p' = Some "true" ∧
    Project.status p' = "under_review" ∧
    Project.status p' ≠ "completed" ∧
    Project.paymentStatus p' = Project.paymentStatus p) ∧
  (∀ action : Js.value, ∃ p' : Project.t,
    projects (Routes.buyerAction W id action s).2 !! id = Some p' ∧
    Project.status p' ≠ "completed" ∧
    Project.paymentStatus p' = Project.paymentStatus p).
Proof.
  intros Hp Hseller. split.
  - unfold Routes.buyerAction, bind, ret, Storage.getProject; cbn.
    rewrite Hp; cbn. rewrite (updateProject_found W _ _ _ _ Hp); cbn.
    eexists. split_and!; try reflexivity; try done.
    apply lookup_insert_eq.
  - intros action.
    unfold Routes.buyerAction, bind, ret, Storage.getProject; cbn.
    rewrite Hp; cbn. rewrite (updateProject_found W _ _ _ _ Hp); cbn.
    eexists. split_and!; [apply lookup_insert_eq| |reflexivity].
    cbn. by destruct (Js.strictEq action "approve").
Qed.

(** C10. For an existing project, any [action] other than the string
    "approve" (another string, another kind of value, no action at all) is
    served exactly as "request_revision" is: [buyerApproved] and [status]
    become "revision_requested" and a "review" activity is appended. *)
Theorem buyerAction_other_is_revision (s : Server) (id : string)
    (p : Project.t) (action : Js.value) :
  projects s !! id = Some p →
  uuidAt W (drawn s) ∉ (activities s).*1 →
  action ≠ Js.str "approve" →
  Routes.buyerAction W id action s
    = Routes.buyerAction W id (Js.str "request_revision") s ∧
  ∃ (p' : Project.t) (a : Activity.t),
    (Routes.buyerAction W id action s).1
      = Respond 200 (JsonProject (Some p')) ∧
    projects (Routes.buyerAction W id action s).2 !! id = Some p' ∧
    Project.buyerApproved p' = Some "revision_requested" ∧
    Project.status p' = "revision_requested" ∧
    activities (Routes.buyerAction W id action s).2
      = (activities s ++ [(uuidAt W (drawn s), a)])%list ∧
    Activity.projectId a = id ∧
    Activity.type a = "review".
Proof.
  intros Hp Hfresh Hact.
  assert (Js.strictEq action "approve" = false) as Hne.
  { destruct action as [| | | |x|]; cbn; try done.
    destruct (String.eqb_spec x "approve") as [->|_]; [done|done]. }
  unfold Routes.buyerAction, bind, ret, Storage.getProject; cbn.
  rewrite Hp; cbn. rewrite !(updateProject_found W _ _ _ _ Hp); cbn.
  rewrite Hne. split; [reflexivity|].
  rewrite (mapSet_fresh _ _ _ Hfresh).
  eexists _, _. split_and!; try reflexivity.
  apply lookup_insert_eq.
Qed.

End Approvals.

(** ** File access and upload *)

Section Files.
Context (W : World).


Lemma fieldEq_true (x : option string) (v : string) :
  Js.fieldEq x v = true ↔ x = Some v.
Proof.
  destruct x as [y|]; cbn; [|done].
  rewrite String.eqb_eq. split; [by intros ->|by intros [= ->]].
Qed.

Lemma strictEq_true (x : Js.value) (v : string) :
  Js.strictEq x v = true ↔ x = Js.str v.
Proof.
  destruct x; cbn; try done.
  rewrite String.eqb_eq. split; [by intros ->|by intros [= ->]].
Qed.

(** C3. For a project with a file, the download gate is true exactly when
    [buyerApproved] and [sellerApproved] are both "true"; a download request
    while the gate is false is answered Forbidden (403, not 404); a request
    that is not a download gets the file's metadata whatever the gate says,
    once the file is there; and a download with the gate true is served.
    Nothing is changed by any of it. *)
Theorem download_gate (s : Server) (id : string) (p : Project.t)
    (download : Js.value) :
  projects s !! id = Some p →
  Js.truthy (Project.filePath p) = true →
  (Routes.downloadAllowed p = true ↔
     Project.buyerApproved p = Some "true" ∧
     Project.sellerApproved p = Some "true") ∧
  (download = Js.str "true" → Routes.downloadAllowed p = false →
     outcome (Routes.getFileInfo W id download s).1 = Forbidden ∧
     outcome (Routes.getFileInfo W id download s).1 ≠ NotFound) ∧
  (download ≠ Js.str "true" →
   existsSync W (default EmptyString (Project.filePath p)) = true →
     (Routes.getFileInfo W id download s).1
       = Respond 200
           (JsonFileInfo (Project.fileName p) (Project.fileSize p)
              (Project.fileType p) (Project.uploadedAt p)
              (Routes.downloadAllowed p))) ∧
  (download = Js.str "true" → Routes.downloadAllowed p = true →
   existsSync W (default EmptyString (Project.filePath p)) = true →
     (Routes.getFileInfo W id download s).1
       = Respond 200
           (Download (default EmptyString (Project.filePath p))
              (Js.orElse (Project.fileName p) "model"))) ∧
  (Routes.getFileInfo W id download s).2 = s.
Proof.
  intros Hp Hfile.
  unfold Routes.getFileInfo, bind, ret, Storage.getProject; cbn.
  rewrite Hp, Hfile; cbn. split_and!.
  - unfold Routes.downloadAllowed. rewrite andb_true_iff.
    by rewrite !fieldEq_true.
  - intros -> Hgate. unfold Routes.downloadAllowed in Hgate. cbn.
    destruct (Js.fieldEq (Project.buyerApproved p) "true"),
      (Js.fieldEq (Project.sellerApproved p) "true"); cbn in *; done.
  - intros Hd Hdisk.
    assert (Js.strictEq download "true" = false) as ->.
    { apply not_true_is_false. by rewrite strictEq_true. }
    cbn. by rewrite Hdisk.
  - intros -> Hgate Hdisk. unfold Routes.downloadAllowed in Hgate.
    apply andb_true_iff in Hgate as [-> ->]. cbn. by rewrite Hdisk.
  - by repeat case_match.
Qed.


End Files.

(** ** Unknown project ids *)

Section UnknownId.
Context (W : World).

(** C7, as the code has it.  For an id that is not in the repository,
    [depositPayment], [buyerAction], [sellerApprove], [updateProject] (of a
    payload that passed validation) and [uploadFile] (of a file the upload
    filter accepts) answer NotFound; and each of them, [uploadFile] with any
    file or none included, leaves the server exactly as it was. *)
Theorem unknown_id_not_found (s : Server) (id : string) :
  projects s !! id = None →
  (outcome (Routes.depositPayment W id s).1 = NotFound ∧
   (Routes.depositPayment W id s).2 = s) ∧
  (∀ action : Js.value,
     outcome (Routes.buyerAction W id action s).1 = NotFound ∧
     (Routes.buyerAction W id action s).2 = s) ∧
  (outcome (Routes.sellerApprove W id s).1 = NotFound ∧
   (Routes.sellerApprove W id s).2 = s) ∧
  (∀ updates : UpdateProject.t,
     outcome (Routes.updateProject W id (Some updates) s).1 = NotFound ∧
     (Routes.updateProject W id (Some updates) s).2 = s) ∧
  (∀ file : MulterFile.t,
     Routes.uploadSingle W (Some file) = Stored file →
     outcome (Routes.uploadFile W id (Some file) s).1 = NotFound) ∧
  (∀ incoming : option MulterFile.t,
     (Routes.uploadFile W id incoming s).2 = s).
Proof.
  intros Hp. split_and!.
  - unfold Routes.depositPayment, bind, ret, Storage.getProject; cbn.
    by rewrite Hp.
  - unfold Routes.depositPayment, bind, ret, Storage.getProject; cbn.
    by rewrite Hp.
  - intros action.
    unfold Routes.buyerAction, bind, ret, Storage.getProject; cbn.
    by rewrite Hp.
  - unfold Routes.sellerApprove, bind, ret, Storage.getProject; cbn.
    by rewrite Hp.
  - unfold Routes.sellerApprove, bind, ret, Storage.getProject; cbn.
    by rewrite Hp.
  - intros updates. unfold Routes.updateProject, bind, ret.
    by rewrite (updateProject_missing W _ _ _ Hp).
  - intros file Hstored. unfold Routes.uploadFile. rewrite Hstored.
    unfold bind, ret, Storage.getProject; cbn. by rewrite Hp.
  - intros incoming. unfold Routes.uploadFile.
    destruct (Routes.uploadSingle W incoming); try done.
    unfold bind, ret, Storage.getProject; cbn. by rewrite Hp.
Qed.

End UnknownId.


(** ** Activity listings *)

Section Sorting.
Context {A : Type} (key : A → Z) (cmp : A → A → Z).
Hypothesis cmp_key : ∀ a b, cmp a b = key b - key a.

Let before (a b : A) : Prop := key b ≤ key a.

Lemma insertBy_Permutation (x : A) (l : list A) :
  Js.insertBy cmp x l ≡ₚ x :: l.
Proof.
  induction l as [|y l IH]; cbn; [done|].
  destruct (0 <? cmp x y); [|done].
  rewrite IH. apply Permutation_swap.
Qed.

Lemma sort_Permutation (l : list A) : Js.sort cmp l ≡ₚ l.
Proof.
  induction l as [|x l IH]; cbn; [done|].
  rewrite insertBy_Permutation. by rewrite IH.
Qed.

Lemma insertBy_HdRel (x y : A) (l : list A) :
  before y x → HdRel before y l → HdRel before y (Js.insertBy cmp x l).
Proof.
  intros Hyx Hl. destruct l as [|z l]; cbn; [by constructor|].
  destruct (0 <? cmp x z); constructor; [|done].
  by inversion Hl.
Qed.

Lemma insertBy_Sorted (x : A) (l : list A) :
  Sorted before l → Sorted before (Js.insertBy cmp x l).
Proof.
  induction 1 as [|y l Hl IH Hy]; cbn; [by repeat constructor|].
  destruct (Z.ltb_spec 0 (cmp x y)) as [Hlt|Hge].
  - constructor; [done|]. apply insertBy_HdRel; [|done].
    unfold before. rewrite cmp_key in Hlt. lia.
  - constructor; [by constructor|]. constructor.
    unfold before. rewrite cmp_key in Hge. lia.
Qed.

Lemma sort_Sorted (l : list A) : Sorted before (Js.sort cmp l).
Proof.
  induction l as [|x l IH]; cbn; [constructor|].
  by apply insertBy_Sorted.
Qed.

(** The sort is stable: elements with the same key keep their order. *)
Lemma insertBy_stable (k : Z) (x : A) (l : list A) :
  Sorted before l →
  filter (λ a, key a = k) (Js.insertBy cmp x l)
    = filter (λ a, key a = k) (x :: l).
Proof.
  induction 1 as [|y l Hl IH Hy]; cbn; [done|].
  destruct (Z.ltb_spec 0 (cmp x y)) as [Hlt|Hge]; [|done].
  rewrite cmp_key in Hlt.
  rewrite !filter_cons. rewrite !filter_cons in IH.
  destruct (decide (key y = k)) as [Hyk|Hyk];
    destruct (decide (key x = k)) as [Hxk|Hxk]; try lia;
    rewrite IH; by rewrite ?decide_True, ?decide_False by done.
Qed.

Lemma sort_stable (k : Z) (l : list A) :
  filter (λ a, key a = k) (Js.sort cmp l) = filter (λ a, key a = k) l.
Proof.
  induction l as [|x l IH]; [done|].
  change (Js.sort cmp (x :: l)) with (Js.insertBy cmp x (Js.sort cmp l)).
  rewrite insertBy_stable by apply sort_Sorted.
  rewrite !filter_cons. by rewrite IH.
Qed.

Lemma Sorted_take (n : nat) (l : list A) :
  Sorted before l → Sorted before (take n l).
Proof.
  intros Hl. revert n.
  induction Hl as [|y l Hl IH Hy]; intros [|n]; cbn; try constructor.
  - apply IH.
  - destruct Hy; destruct n; cbn; by constructor.
Qed.

End Sorting.

Section Listings.

Lemma newestFirst_key (a b : Activity.t) :
  Storage.newestFirst a b = Storage.timeOrZero b - Storage.timeOrZero a.
Proof. reflexivity. Qed.

Lemma sliceEnd_nonneg (len : nat) (limit : Z) :
  0 ≤ limit → Js.sliceEnd len limit = (Z.to_nat limit `min` len)%nat.
Proof.
  intros H. unfold Js.sliceEnd.
  destruct (Z.ltb_spec limit 0); lia.
Qed.

(** C9, as the code has it.  [getActivitiesByProject] returns exactly the
    activities of the project, newest first.  For a limit that is not
    negative, [getRecentActivities] returns the first [limit] activities of
    all activities taken newest first, so at most [limit] of them; without a
    limit it uses 10, and so does the route when the [limit] parameter is not
    a number or is 0.  No listing changes the server. *)
Theorem activity_listings (s : Server) :
  (∀ projectId : string,
     (Storage.getActivitiesByProject projectId s).1
       ≡ₚ filter (λ a, Activity.projectId a = projectId)
            (Js.mapValues (activities s)) ∧
     Sorted notOlder (Storage.getActivitiesByProject projectId s).1 ∧
     (Storage.getActivitiesByProject projectId s).2 = s) ∧
  (∀ limit : Z, 0 ≤ limit →
     (Storage.getRecentActivities (Some limit) s).1
       = take (Z.to_nat limit)
           (Js.sort Storage.newestFirst (Js.mapValues (activities s))) ∧
     Z.of_nat (length (Storage.getRecentActivities (Some limit) s).1) ≤ limit ∧
     Sorted notOlder (Storage.getRecentActivities (Some limit) s).1 ∧
     (Storage.getRecentActivities (Some limit) s).2 = s) ∧
  Js.sort Storage.newestFirst (Js.mapValues (activities s))
    ≡ₚ Js.mapValues (activities s) ∧
  Sorted notOlder (Js.sort Storage.newestFirst (Js.mapValues (activities s))) ∧
  Storage.getRecentActivities None s = Storage.getRecentActivities (Some 10) s ∧
  Routes.listRecentActivities None s = Routes.listRecentActivities (Some 10) s ∧
  Routes.listRecentActivities (Some 0) s = Routes.listRecentActivities (Some 10) s ∧
  (∀ limit : Z, limit ≠ 0 →
     (Routes.listRecentActivities (Some limit) s).1
       = Respond 200
           (JsonActivities (Storage.getRecentActivities (Some limit) s).1)).
Proof.
  split_and!; try reflexivity.
  - intros projectId. split_and!; [| |reflexivity].
    + apply (sort_Permutation Storage.newestFirst).
    + apply (sort_Sorted Storage.timeOrZero), newestFirst_key.
  - intros limit Hlimit.
    assert ((Storage.getRecentActivities (Some limit) s).1
       = take (Z.to_nat limit)
           (Js.sort Storage.newestFirst (Js.mapValues (activities s)))) as Heq.
    { unfold Storage.getRecentActivities, Js.slice0; cbn.
      rewrite sliceEnd_nonneg by done.
      rewrite <- take_take. f_equal. by apply take_ge. }
    split_and!; [done| | |reflexivity].
    + rewrite Heq, length_take. lia.
    + rewrite Heq. apply (Sorted_take Storage.timeOrZero).
      apply (sort_Sorted Storage.timeOrZero), newestFirst_key.
  - apply (sort_Permutation Storage.newestFirst).
  - apply (sort_Sorted Storage.timeOrZero), newestFirst_key.
  - intros limit Hlimit. unfold Routes.listRecentActivities, bind, ret; cbn.
    by destruct limit.
Qed.

End Listings.

(** ** The payment status, request by request *)

Ltac unfold_routes :=
  unfold handle, Routes.createProject, Routes.updateProject,
    Routes.uploadFile, Routes.depositPayment, Routes.buyerAction,
    Routes.sellerApprove, Routes.notFound, bind, ret, Storage.getProject;
  cbn.

Section PaymentStatus.
Context (W : World).

(** C1, as the code has it.  What a request does to the [paymentStatus] of
    an existing project: [depositPayment] on it sets "held", whatever it was
    before; [sellerApprove] on it sets "released" when the buyer has
    approved and changes nothing otherwise; [updateProject] on it sets what
    the payload carries, if it carries a [paymentStatus]; every other
    request, and every request on another project, leaves it as it was (a
    creation, when the identifier it draws is not in use).  So no request
    other than [depositPayment] and [updateProject] moves it backward. *)
Theorem paymentStatus_step (request : Request) (s : Server) (id : string)
    (p : Project.t) :
  projects s !! id = Some p →
  (∀ parsed, request = PostProject parsed →
     projects s !! uuidAt W (drawn s) = None) →
  ∃ p' : Project.t,
    projects (handle W request s).2 !! id = Some p' ∧
    Project.paymentStatus p' =
      match request with
      | PostDeposit i =>
          if decide (i = id) then Some "held" else Project.paymentStatus p
      | PostSellerApprove i =>
          if decide (i = id) then
            if Js.fieldEq (Project.buyerApproved p) "true"
            then Some "released" else Project.paymentStatus p
          else Project.paymentStatus p
      | PatchProject i (Some updates) =>
          if decide (i = id) then
            default (Project.paymentStatus p)
              (UpdateProject.paymentStatus updates)
          else Project.paymentStatus p
      | _ => Project.paymentStatus p
      end ∧
    ((∀ i, request ≠ PostDeposit i) →
     (∀ i parsed, request ≠ PatchProject i parsed) →
     ¬ backward (Project.paymentStatus p) (Project.paymentStatus p')).
Proof.
  intros Hp Hfresh.
  assert (∀ x : option string, ¬ backward x x) as Hsame.
  { intros x [[-> [=]]|[[-> [=]]|[-> [=]]]]. }
  assert (∀ x : option string, ¬ backward x (Some "released")) as Hrel.
  { intros x [[_ [=]]|[[_ [=]]|[_ [=]]]]. }
  destruct request as [parsed|i parsed|i incoming|i|i action|i].
  - (* creation *)
    specialize (Hfresh parsed eq_refl).
    assert (uuidAt W (drawn s) ≠ id) as Hne by (intros <-; congruence).
    exists p. destruct parsed as [input|]; unfold_routes;
      rewrite ?lookup_insert_ne by done; eauto.
  - (* update *)
    destruct parsed as [updates|]; unfold_routes; [|by eauto].
    destruct (projects s !! i) as [q|] eqn:Hq.
    + rewrite (updateProject_found W _ _ _ _ Hq); cbn.
      destruct (decide (i = id)) as [->|Hne].
      * rewrite lookup_insert_eq. eexists; split_and!; [done| |].
        -- cbn. congruence.
        -- intros _ Hno. by destruct (Hno id (Some updates)).
      * rewrite lookup_insert_ne by done. eexists; split_and!; [done..|].
        intros _ Hno. by destruct (Hno i (Some updates)).
    + rewrite (updateProject_missing W _ _ _ Hq); cbn.
      exists p. split_and!; [done| |by auto].
      destruct (decide (i = id)) as [->|]; [congruence|done].
  - (* upload *)
    unfold_routes. destruct (Routes.uploadSingle W incoming); cbn;
      [by eauto..|].
    destruct (projects s !! i) as [q|] eqn:Hq; cbn; [|by eauto].
    rewrite (updateProject_found W _ _ _ _ Hq); cbn.
    rewrite lookup_insert_eq; cbn.
    destruct (decide (i = id)) as [->|Hne].
    + rewrite lookup_insert_eq. eexists; split_and!; [done| |]; cbn.
      * congruence.
      * intros _ _. replace q with p by congruence. apply Hsame.
    + rewrite !lookup_insert_ne by done. eauto.
  - (* deposit *)
    unfold_routes. destruct (projects s !! i) as [q|] eqn:Hq; cbn.
    + rewrite (updateProject_found W _ _ _ _ Hq); cbn.
      destruct (decide (i = id)) as [->|Hne].
      * rewrite lookup_insert_eq. eexists; split_and!; [done..|].
        intros Hno. by destruct (Hno id).
      * rewrite lookup_insert_ne by done. eexists; split_and!; [done..|].
        intros Hno. by destruct (Hno i).
    + exists p. split_and!; [done| |by auto].
      destruct (decide (i = id)) as [->|]; [congruence|done].
  - (* buyer action *)
    unfold_routes. destruct (projects s !! i) as [q|] eqn:Hq; cbn;
      [|by eauto].
    rewrite (updateProject_found W _ _ _ _ Hq); cbn.
    destruct (decide (i = id)) as [->|Hne].
    + rewrite lookup_insert_eq. eexists; split_and!; [done| |]; cbn.
      * congruence.
      * intros _ _. replace q with p by congruence. apply Hsame.
    + rewrite lookup_insert_ne by done. eauto.
  - (* seller approval *)
    unfold_routes. destruct (projects s !! i) as [q|] eqn:Hq; cbn.
    + rewrite (updateProject_found W _ _ _ _ Hq); cbn.
      destruct (decide (i = id)) as [->|Hne].
      * rewrite lookup_insert_eq. replace q with p by congruence.
        eexists; split_and!; [done..|]. cbn. intros _ _.
        destruct (Js.fieldEq (Project.buyerApproved p) "true"); auto.
      * rewrite lookup_insert_ne by done. eauto.
    + exists p. split_and!; [done| |by auto].
      destruct (decide (i = id)) as [->|]; [congruence|done].
Qed.

End PaymentStatus.

(** ** Time stamps and identity *)

Section Timestamps.
Context (W : World).

(** What one request does to the project map: nothing; or it replaces one
    project by a version with the same [id] and [createdAt] and a new clock
    reading as [updatedAt]; or it stores a new project under the identifier
    it draws. *)
Lemma handle_shape (request : Request) (s : Server) :
  (drawn s ≤ drawn (handle W request s).2)%nat ∧
  (ticks s ≤ ticks (handle W request s).2)%nat ∧
  (projects (handle W request s).2 = projects s
   ∨ (∃ (i : string) (q q' : Project.t) (n : nat),
        projects s !! i = Some q ∧
        projects (handle W request s).2 = <[i := q']> (projects s) ∧
        Project.id q' = Project.id q ∧
        Project.createdAt q' = Project.createdAt q ∧
        (ticks s ≤ n < ticks (handle W request s).2)%nat ∧
        Project.updatedAt q' = Some (clockAt W n))
   ∨ (∃ q' : Project.t,
        projects (handle W request s).2
          = <[uuidAt W (drawn s) := q']> (projects s) ∧
        Project.id q' = uuidAt W (drawn s) ∧
        Project.createdAt q' = Some (clockAt W (ticks s)) ∧
        Project.updatedAt q' = Some (clockAt W (ticks s)) ∧
        (drawn s < drawn (handle W request s).2)%nat ∧
        (ticks s < ticks (handle W request s).2)%nat)).
Proof.
  destruct request as [parsed|i parsed|i incoming|i|i action|i].
  - destruct parsed as [input|]; unfold_routes; [|by auto].
    split_and!; [lia..|]. right; right. eexists; split_and!; try done; lia.
  - destruct parsed as [updates|]; unfold_routes; [|by auto].
    destruct (projects s !! i) as [q|] eqn:Hq.
    + rewrite (updateProject_found W _ _ _ _ Hq); cbn.
      split_and!; [lia..|]. right; left.
      eexists i, q, _, (ticks s). split_and!; try done; lia.
    + rewrite (updateProject_missing W _ _ _ Hq); cbn. auto.
  - unfold_routes. destruct (Routes.uploadSingle W incoming); cbn;
      [by auto..|].
    destruct (projects s !! i) as [q|] eqn:Hq; cbn; [|by auto].
    rewrite (updateProject_found W _ _ _ _ Hq); cbn.
    rewrite lookup_insert_eq; cbn. rewrite insert_insert_eq.
    split_and!; [lia..|]. right; left.
    eexists i, q, _, (ticks s). split_and!; try done; lia.
  - unfold_routes. destruct (projects s !! i) as [q|] eqn:Hq; cbn;
      [|by auto].
    rewrite (updateProject_found W _ _ _ _ Hq); cbn.
    split_and!; [lia..|]. right; left.
    eexists i, q, _, (ticks s). split_and!; try done; lia.
  - unfold_routes. destruct (projects s !! i) as [q|] eqn:Hq; cbn;
      [|by auto].
    rewrite (updateProject_found W _ _ _ _ Hq); cbn.
    split_and!; [lia..|]. right; left.
    eexists i, q, _, (ticks s). split_and!; try done; lia.
  - unfold_routes. destruct (projects s !! i) as [q|] eqn:Hq; cbn;
      [|by auto].
    rewrite (updateProject_found W _ _ _ _ Hq); cbn.
    split_and!; [lia..|]. right; left.
    eexists i, q, _, (ticks s). split_and!; try done; lia.
Qed.

Lemma initial_wellFormed : wellFormed W initial.
Proof.
  intros k p Hk.
  change (projects initial) with (∅ : gmap string Project.t) in Hk.
  by rewrite lookup_empty in Hk.
Qed.

Lemma handle_wellFormed (request : Request) (s : Server) :
  wellFormed W s → wellFormed W (handle W request s).2.
Proof.
  intros Hs k p.
  destruct (handle_shape request s) as (Hd & Ht & [Heq|[Hupd|Hnew]]).
  - rewrite Heq. intros Hk.
    destruct (Hs k p Hk) as (Hid & (i & Hi & Hki) & m & n & Hmn & Hc & Hu).
    split_and!; [done|exists i; split; [lia|done]|].
    exists m, n. split_and!; [lia..|done|done].
  - destruct Hupd as (i & q & q' & n' & Hq & -> & Hid' & Hc' & Hn' & Hu').
    destruct (Hs i q Hq) as (Hid & (j & Hj & Hij) & m & n & Hmn & Hc & Hu).
    destruct (decide (i = k)) as [->|Hne].
    + rewrite lookup_insert_eq. intros [= <-].
      split_and!; [congruence|exists j; split; [lia|done]|].
      exists m, n'. split_and!; [lia..|congruence|done].
    + rewrite lookup_insert_ne by done. intros Hk.
      destruct (Hs k p Hk)
        as (Hidk & (jk & Hjk & Hkj) & mk & nk & Hmnk & Hck & Huk).
      split_and!; [done|exists jk; split; [lia|done]|].
      exists mk, nk. split_and!; [lia..|done|done].
  - destruct Hnew as (q' & -> & Hid' & Hc' & Hu' & Hd' & Ht').
    destruct (decide (uuidAt W (drawn s) = k)) as [<-|Hne].
    + rewrite lookup_insert_eq. intros [= <-].
      split_and!; [done|exists (drawn s); split; [lia|done]|].
      exists (ticks s), (ticks s). split_and!; [lia..|done|done].
    + rewrite lookup_insert_ne by done. intros Hk.
      destruct (Hs k p Hk)
        as (Hidk & (jk & Hjk & Hkj) & mk & nk & Hmnk & Hck & Huk).
      split_and!; [done|exists jk; split; [lia|done]|].
      exists mk, nk. split_and!; [lia..|done|done].
Qed.

Lemma serve_wellFormed (requests : list Request) (s : Server) :
  wellFormed W s → wellFormed W (serve W requests s).
Proof.
  revert s. induction requests as [|request requests IH]; intros s Hs;
    [done|].
  cbn. apply IH. by apply handle_wellFormed.
Qed.

Lemma mapSet_keys {V : Type} (k k' : string) (v : V) (m : list (string * V)) :
  k' ∈ (Js.mapSet k v m).*1 → k' = k ∨ k' ∈ m.*1.
Proof.
  induction m as [|[k0 v0] m IH]; cbn.
  - intros ->%list_elem_of_singleton. by left.
  - destruct (String.eqb_spec k k0) as [->|_]; cbn.
    + intros H. by right.
    + intros [->|H]%elem_of_cons; [right; left|].
      destruct (IH H) as [->|?]; [by left|right; by right].
Qed.

(** What one request does to the activity map: nothing, or one [set] under
    an identifier it draws. *)
Lemma handle_activities_shape (request : Request) (s : Server) :
  activities (handle W request s).2 = activities s
  ∨ ∃ (n : nat) (a : Activity.t),
      (drawn s ≤ n < drawn (handle W request s).2)%nat ∧
      activities (handle W request s).2
        = Js.mapSet (uuidAt W n) a (activities s).
Proof.
  destruct request as [parsed|i parsed|i incoming|i|i action|i].
  - destruct parsed as [input|]; unfold_routes; [|by left].
    right. eexists (S (drawn s)), _. split; [lia|done].
  - destruct parsed as [updates|]; unfold_routes; [|by left].
    destruct (projects s !! i) as [q|] eqn:Hq.
    + rewrite (updateProject_found W _ _ _ _ Hq); cbn. by left.
    + rewrite (updateProject_missing W _ _ _ Hq); cbn. by left.
  - unfold_routes. destruct (Routes.uploadSingle W incoming); cbn;
      [by left..|].
    destruct (projects s !! i) as [q|] eqn:Hq; cbn; [|by left].
    rewrite (updateProject_found W _ _ _ _ Hq); cbn.
    rewrite lookup_insert_eq; cbn.
    right. eexists (drawn s), _. split; [lia|done].
  - unfold_routes. destruct (projects s !! i) as [q|] eqn:Hq; cbn;
      [|by left].
    rewrite (updateProject_found W _ _ _ _ Hq); cbn.
    right. eexists (drawn s), _. split; [lia|done].
  - unfold_routes. destruct (projects s !! i) as [q|] eqn:Hq; cbn;
      [|by left].
    rewrite (updateProject_found W _ _ _ _ Hq); cbn.
    right. eexists (drawn s), _. split; [lia|done].
  - unfold_routes. destruct (projects s !! i) as [q|] eqn:Hq; cbn;
      [|by left].
    rewrite (updateProject_found W _ _ _ _ Hq); cbn.
    right. eexists (drawn s), _. split; [lia|done].
Qed.

Lemma handle_activitiesDrawn (request : Request) (s : Server) :
  activitiesDrawn W s → activitiesDrawn W (handle W request s).2.
Proof.
  intros Hs k.
  destruct (handle_shape request s) as (Hd & _ & _).
  destruct (handle_activities_shape request s) as [->|(n & a & Hn & ->)].
  - intros Hk. destruct (Hs k Hk) as (i & Hi & ->). exists i. split; [lia|done].
  - intros [->|Hk]%mapSet_keys; [exists n; split; [lia|done]|].
    destruct (Hs k Hk) as (i & Hi & ->). exists i. split; [lia|done].
Qed.

Lemma serve_activitiesDrawn (requests : list Request) (s : Server) :
  activitiesDrawn W s → activitiesDrawn W (serve W requests s).
Proof.
  revert s. induction requests as [|request requests IH]; intros s Hs;
    [done|].
  cbn. apply IH. by apply handle_activitiesDrawn.
Qed.

(** In a world where identifiers never repeat, the next identifier drawn is
    in use nowhere, in every state the server can reach. *)
Lemma reachable_fresh (s : Server) :
  neverRepeats W → reachable W s →
  projects s !! uuidAt W (drawn s) = None ∧
  uuidAt W (drawn s) ∉ (activities s).*1.
Proof.
  intros Huuid [requests ->]. split.
  - destruct (projects (serve W requests initial) !! _) as [p|] eqn:Hp;
      [|done].
    destruct (serve_wellFormed requests initial initial_wellFormed _ _ Hp)
      as (_ & (i & Hi & Heq) & _).
    apply Huuid in Heq. lia.
  - intros Hk.
    destruct (serve_activitiesDrawn requests initial) with (k := uuidAt W
      (drawn (serve W requests initial))) as (i & Hi & Heq); [|done|].
    + intros k Hin. cbn in Hin. by apply elem_of_nil in Hin.
    + apply Huuid in Heq. lia.
Qed.

Lemma wellFormed_ordered (s : Server) (k : string) (p : Project.t) :
  neverGoesBack W → wellFormed W s → projects s !! k = Some p →
  ∃ c u : Z, Project.createdAt p = Some c ∧ Project.updatedAt p = Some u ∧
    c ≤ u ∧ ∀ n : nat, (ticks s ≤ n)%nat → u ≤ clockAt W n.
Proof.
  intros Hclock Hs Hk.
  destruct (Hs k p Hk) as (_ & _ & m & n & Hmn & Hc & Hu).
  exists (clockAt W m), (clockAt W n). split_and!; [done..| |].
  - apply Hclock. lia.
  - intros n' Hn'. apply Hclock. lia.
Qed.

(** C8.  In a world where identifiers never repeat and the clock never goes
    back, in every state the server can reach: a project just created has
    [updatedAt] equal to [createdAt]; every stored project has [createdAt]
    no later than [updatedAt]; a successful [updateProject] keeps [id] and
    [createdAt] and sets [updatedAt] no earlier than it was; and whatever
    the next request is, every stored project is still stored afterwards
    with the same [id] and [createdAt] and an [updatedAt] no earlier than
    before. *)
Theorem timestamps_and_identity (s : Server) :
  neverRepeats W → neverGoesBack W → reachable W s →
  (∀ input : InsertProject.t,
     Project.updatedAt (Storage.createProject W input s).1
       = Project.createdAt (Storage.createProject W input s).1) ∧
  (∀ (k : string) (p : Project.t), projects s !! k = Some p →
     Project.id p = k ∧
     ∃ c u : Z, Project.createdAt p = Some c ∧ Project.updatedAt p = Some u ∧
       c ≤ u) ∧
  (∀ (id : string) (updates : UpdateProject.t) (p p' : Project.t),
     projects s !! id = Some p →
     (Storage.updateProject W id updates s).1 = Some p' →
     projects (Storage.updateProject W id updates s).2 !! id = Some p' ∧
     Project.id p' = Project.id p ∧
     Project.createdAt p' = Project.createdAt p ∧
     ∃ u u' : Z, Project.updatedAt p = Some u ∧
       Project.updatedAt p' = Some u' ∧ u ≤ u') ∧
  (∀ (request : Request) (k : string) (p : Project.t),
     projects s !! k = Some p →
     ∃ p' : Project.t,
       projects (handle W request s).2 !! k = Some p' ∧
       Project.id p' = Project.id p ∧
       Project.createdAt p' = Project.createdAt p ∧
       ∃ u u' : Z, Project.updatedAt p = Some u ∧
         Project.updatedAt p' = Some u' ∧ u ≤ u').
Proof.
  intros Huuid Hclock [requests ->].
  pose proof (serve_wellFormed requests initial initial_wellFormed) as Hs.
  set (s := serve W requests initial) in *.
  split_and!.
  - reflexivity.
  - intros k p Hk. split; [by apply (Hs k p Hk)|].
    destruct (wellFormed_ordered s k p Hclock Hs Hk) as (c & u & ? & ? & ? & _).
    by exists c, u.
  - intros id updates p p' Hp Hret.
    rewrite (updateProject_found W _ _ _ _ Hp) in Hret |- *; cbn in *.
    injection Hret as <-.
    destruct (wellFormed_ordered s id p Hclock Hs Hp)
      as (c & u & Hc & Hu & Hcu & Hnext).
    split_and!; [apply lookup_insert_eq|done|done|].
    exists u, (clockAt W (ticks s)). split_and!; [done..|]. by apply Hnext.
  - intros request k p Hk.
    destruct (wellFormed_ordered s k p Hclock Hs Hk)
      as (c & u & Hc & Hu & Hcu & Hnext).
    destruct (handle_shape request s) as (Hd & Ht & [Heq|[Hupd|Hnew]]).
    + rewrite Heq. exists p. split_and!; [done..|].
      exists u, u. split_and!; [done..|lia].
    + destruct Hupd as (i & q & q' & n' & Hq & -> & Hid' & Hc' & Hn' & Hu').
      destruct (decide (i = k)) as [->|Hne].
      * rewrite lookup_insert_eq. replace q with p in * by congruence.
        exists q'. split_and!; [done..|].
        exists u, (clockAt W n'). split_and!; [done..|]. apply Hnext. lia.
      * rewrite lookup_insert_ne by done. exists p. split_and!; [done..|].
        exists u, u. split_and!; [done..|lia].
    + destruct Hnew as (q' & -> & _).
      destruct (Hs k p Hk) as (_ & (j & Hj & ->) & _).
      assert (uuidAt W (drawn s) ≠ uuidAt W j) as Hne.
      { intros Heq. apply Huuid in Heq. lia. }
      rewrite lookup_insert_ne by done. exists p. split_and!; [done..|].
      exists u, u. split_and!; [done..|lia].
Qed.

End Timestamps.

(** ** Creation *)

Section Creation.
Context (W : World).

(** C5, as the code has it.  [createProject] returns, and stores under its
    id, a project whose id is the identifier just drawn, with [createdAt]
    equal to [updatedAt], without file metadata, and where [status],
    [paymentStatus], [buyerApproved], [sellerApproved] and [currency] are
    the input's when the input has them and "created", "pending", "false",
    "false" and "USD" when it does not.  The identifier differs from every
    existing project's, and the existing projects stay as they are, in every
    state the server can reach as long as [randomUUID] never repeats an
    identifier; [createProject] itself does not look. *)
Theorem createProject_result (s : Server) (input : InsertProject.t) :
  Project.id (Storage.createProject W input s).1 = uuidAt W (drawn s) ∧
  projects (Storage.createProject W input s).2 !! uuidAt W (drawn s)
    = Some (Storage.createProject W input s).1 ∧
  Project.createdAt (Storage.createProject W input s).1
    = Project.updatedAt (Storage.createProject W input s).1 ∧
  Project.createdAt (Storage.createProject W input s).1
    = Some (clockAt W (ticks s)) ∧
  Project.status (Storage.createProject W input s).1
    = default "created" (InsertProject.status input) ∧
  Project.paymentStatus (Storage.createProject W input s).1
    = Some (default "pending" (InsertProject.paymentStatus input)) ∧
  Project.buyerApproved (Storage.createProject W input s).1
    = Some (default "false" (InsertProject.buyerApproved input)) ∧
  Project.sellerApproved (Storage.createProject W input s).1
    = Some (default "false" (InsertProject.sellerApproved input)) ∧
  Project.currency (Storage.createProject W input s).1
    = Some (default "USD" (InsertProject.currency input)) ∧
  Project.fileName (Storage.createProject W input s).1 = None ∧
  Project.fileSize (Storage.createProject W input s).1 = None ∧
  Project.fileType (Storage.createProject W input s).1 = None ∧
  Project.filePath (Storage.createProject W input s).1 = None ∧
  Project.uploadedAt (Storage.createProject W input s).1 = None ∧
  (neverRepeats W → reachable W s →
     ∀ (k : string) (q : Project.t), projects s !! k = Some q →
       Project.id (Storage.createProject W input s).1 ≠ k ∧
       projects (Storage.createProject W input s).2 !! k = Some q).
Proof.
  unfold Storage.createProject, bind, ret; cbn.
  split_and!; try reflexivity.
  - apply lookup_insert_eq.
  - intros Huuid Hreach k q Hk.
    destruct (reachable_fresh W s Huuid Hreach) as [Hfresh _].
    assert (uuidAt W (drawn s) ≠ k) as Hne by (intros <-; congruence).
    split; [done|]. by rewrite lookup_insert_ne.
Qed.

End Creation.

(** ** The theorems at concrete inputs *)

(** The demonstration world satisfies the two assumptions. *)
Lemma demo_neverRepeats : neverRepeats Demo.W.
Proof.
  intros i j Heq. cbn in Heq. unfold Demo.uuid in Heq.
  apply (inj (String.app "uuid-")) in Heq. by apply (inj pretty) in Heq.
Qed.

Lemma demo_neverGoesBack : neverGoesBack Demo.W.
Proof. intros i j Hij. cbn. unfold Demo.clock. lia. Qed.

(** The buyer has approved: the seller's approval completes the project. *)
Lemma sellerApprove_effect_witness :
  projects (Demo.store (Demo.project "true" "false" "held")) !! "p1"
    = Some (Demo.project "true" "false" "held") ∧
  ∃ p' : Project.t,
    projects (Routes.sellerApprove Demo.W "p1"
                (Demo.store (Demo.project "true" "false" "held"))).2 !! "p1"
      = Some p' ∧
    Project.sellerApproved p' = Some "true" ∧
    Project.status p' = "completed" ∧
    Project.paymentStatus p' = Some "released".
Proof.
  assert (projects (Demo.store (Demo.project "true" "false" "held")) !! "p1"
    = Some (Demo.project "true" "false" "held")) as Hp by (vm_compute; reflexivity).
  split; [exact Hp|].
  destruct (sellerApprove_effect Demo.W _ _ _ Hp) as (p' & a & H).
  { cbn. apply not_elem_of_nil. }
  destruct H as (_ & Hp' & _ & _ & Hs & Hyes & _).
  destruct Hyes as (? & ? & _); [reflexivity|].
  by exists p'.
Defined.

(** The seller has approved: the buyer's approval leaves the project under
    review and the payment held. *)
Lemma buyerAction_approve_no_completion_witness :
  projects (Demo.store (Demo.project "false" "true" "held")) !! "p1"
    = Some (Demo.project "false" "true" "held") ∧
  Project.sellerApproved (Demo.project "false" "true" "held") = Some "true" ∧
  ∃ p' : Project.t,
    projects (Routes.buyerAction Demo.W "p1" (Js.str "approve")
                (Demo.store (Demo.project "false" "true" "held"))).2 !! "p1"
      = Some p' ∧
    Project.buyerApproved p' = Some "true" ∧
    Project.status p' = "under_review" ∧
    Project.paymentStatus p' = Some "held".
Proof.
  assert (projects (Demo.store (Demo.project "false" "true" "held")) !! "p1"
    = Some (Demo.project "false" "true" "held")) as Hp
    by (vm_compute; reflexivity).
  split; [exact Hp|]. split; [reflexivity|].
  destruct (buyerAction_approve_no_completion Demo.W _ _ _ Hp eq_refl)
    as [(p' & _ & Hp' & Hb & _ & Hs & _ & Hpay) _].
  by exists p'.
Defined.

(** A request without an action is a revision request. *)
Lemma buyerAction_other_is_revision_witness :
  projects (Demo.store (Demo.project "true" "false" "held")) !! "p1"
    = Some (Demo.project "true" "false" "held") ∧
  Js.undefined ≠ Js.str "approve" ∧
  ∃ p' : Project.t,
    projects (Routes.buyerAction Demo.W "p1" Js.undefined
                (Demo.store (Demo.project "true" "false" "held"))).2 !! "p1"
      = Some p' ∧
    Project.buyerApproved p' = Some "revision_requested" ∧
    Project.status p' = "revision_requested".
Proof.
  assert (projects (Demo.store (Demo.project "true" "false" "held")) !! "p1"
    = Some (Demo.project "true" "false" "held")) as Hp
    by (vm_compute; reflexivity).
  assert (Js.undefined ≠ Js.str "approve") as Hact by discriminate.
  split; [exact Hp|]. split; [exact Hact|].
  destruct (buyerAction_other_is_revision Demo.W _ _ _ _ Hp
              (not_elem_of_nil _) Hact)
    as (_ & p' & a & _ & Hp' & Hb & Hs & _).
  by exists p'.
Defined.

(** The buyer asked for a revision: the download is forbidden, the preview
    is served. *)
Lemma download_gate_witness :
  projects (Demo.store (Demo.project "revision_requested" "true" "held")) !! "p1"
    = Some (Demo.project "revision_requested" "true" "held") ∧
  Js.truthy (Project.filePath (Demo.project "revision_requested" "true" "held"))
    = true ∧
  Routes.downloadAllowed (Demo.project "revision_requested" "true" "held")
    = false ∧
  outcome (Routes.getFileInfo (Demo.withFiles ["/srv/uploads/file-1-2.stl"])
             "p1" (Js.str "true")
             (Demo.store (Demo.project "revision_requested" "true" "held"))).1
    = Forbidden ∧
  outcome (Routes.getFileInfo (Demo.withFiles ["/srv/uploads/file-1-2.stl"])
             "p1" Js.undefined
             (Demo.store (Demo.project "revision_requested" "true" "held"))).1
    = Success.
Proof.
  assert (projects (Demo.store (Demo.project "revision_requested" "true" "held"))
            !! "p1"
    = Some (Demo.project "revision_requested" "true" "held")) as Hp
    by (vm_compute; reflexivity).
  split; [exact Hp|]. split; [reflexivity|]. split; [reflexivity|].
  split.
  - destruct (download_gate (Demo.withFiles ["/srv/uploads/file-1-2.stl"])
                _ _ _ (Js.str "true") Hp eq_refl) as (_ & Hforbidden & _).
    by destruct (Hforbidden eq_refl eq_refl).
  - destruct (download_gate (Demo.withFiles ["/srv/uploads/file-1-2.stl"])
                _ _ _ Js.undefined Hp eq_refl) as (_ & _ & Hpreview & _).
    rewrite Hpreview; [reflexivity|discriminate|by vm_compute].
Defined.


(** On the empty server every id is unknown. *)
Lemma unknown_id_not_found_witness :
  projects initial !! "nope" = None ∧
  outcome (Routes.depositPayment Demo.W "nope" initial).1 = NotFound ∧
  (Routes.depositPayment Demo.W "nope" initial).2 = initial ∧
  outcome (Routes.uploadFile Demo.W "nope" (Some Demo.partStl) initial).1
    = NotFound.
Proof.
  assert (projects initial !! "nope" = None) as Hp by reflexivity.
  split; [exact Hp|].
  destruct (unknown_id_not_found Demo.W initial "nope" Hp)
    as ((Hout & Hsame) & _ & _ & _ & Hupload & _).
  split_and!; [done..|].
  apply Hupload. by vm_compute.
Defined.

(** Seller approval after buyer approval releases a held payment. *)
Lemma paymentStatus_step_witness :
  projects (Demo.store (Demo.project "true" "false" "held")) !! "p1"
    = Some (Demo.project "true" "false" "held") ∧
  ∃ p' : Project.t,
    projects (handle Demo.W (PostSellerApprove "p1")
                (Demo.store (Demo.project "true" "false" "held"))).2 !! "p1"
      = Some p' ∧
    Project.paymentStatus p' = Some "released" ∧
    ¬ backward (Some "held") (Project.paymentStatus p').
Proof.
  assert (projects (Demo.store (Demo.project "true" "false" "held")) !! "p1"
    = Some (Demo.project "true" "false" "held")) as Hp
    by (vm_compute; reflexivity).
  split; [exact Hp|].
  destruct (paymentStatus_step Demo.W (PostSellerApprove "p1") _ _ _ Hp)
    as (p' & Hp' & Hpay & Hforward).
  { intros parsed [=]. }
  exists p'. split_and!; [done| |].
  - rewrite Hpay. reflexivity.
  - apply Hforward; intros; discriminate.
Defined.

(** A deposit on a project just created keeps its id and creation time. *)
Lemma timestamps_and_identity_witness :
  neverRepeats Demo.W ∧ neverGoesBack Demo.W ∧
  reachable Demo.W (serve Demo.W [PostProject (Some Demo.bracket)] initial) ∧
  ∃ p' : Project.t,
    projects (handle Demo.W (PostDeposit "uuid-0")
                (serve Demo.W [PostProject (Some Demo.bracket)] initial)).2
      !! "uuid-0" = Some p' ∧
    Project.id p' = "uuid-0" ∧
    Project.createdAt p' = Some 0 ∧
    ∃ u' : Z, Project.updatedAt p' = Some u' ∧ 0 ≤ u'.
Proof.
  assert (reachable Demo.W
            (serve Demo.W [PostProject (Some Demo.bracket)] initial)) as Hr
    by (by eexists).
  split; [exact demo_neverRepeats|]. split; [exact demo_neverGoesBack|].
  split; [exact Hr|].
  destruct (timestamps_and_identity Demo.W _ demo_neverRepeats
              demo_neverGoesBack Hr) as (_ & _ & _ & Hstep).
  destruct (Hstep (PostDeposit "uuid-0") "uuid-0"
              (Storage.createProject Demo.W Demo.bracket initial).1)
    as (p' & Hp' & Hid & Hc & u & u' & Hu & Hu' & Hle).
  { vm_compute. reflexivity. }
  exists p'. split_and!; [done..|].
  exists u'. split; [done|]. injection Hu as <-. exact Hle.
Defined.

(** ** Where the code departs from the specification *)

(** C1 fails: after creation, buyer approval and seller approval the payment
    is released, and a deposit then sets it back to held. *)
Lemma deposit_after_release_goes_backward :
  ∃ p p' : Project.t,
    projects (serve Demo.W Demo.completedRun initial) !! "uuid-0" = Some p ∧
    projects (handle Demo.W (PostDeposit "uuid-0")
                (serve Demo.W Demo.completedRun initial)).2 !! "uuid-0"
      = Some p' ∧
    Project.paymentStatus p = Some "released" ∧
    Project.paymentStatus p' = Some "held" ∧
    backward (Project.paymentStatus p) (Project.paymentStatus p').
Proof.
  eexists _, _. split_and!.
  - vm_compute. reflexivity.
  - vm_compute. reflexivity.
  - reflexivity.
  - reflexivity.
  - left. by split.
Qed.

(** C5 fails: a valid create payload that carries its own workflow fields
    gets them back, not the defaults. *)
Lemma createProject_keeps_input_fields :
  Project.status (Storage.createProject Demo.W Demo.prepaid initial).1
    = "completed" ∧
  Project.paymentStatus (Storage.createProject Demo.W Demo.prepaid initial).1
    = Some "released" ∧
  Project.buyerApproved (Storage.createProject Demo.W Demo.prepaid initial).1
    = Some "true" ∧
  Project.sellerApproved (Storage.createProject Demo.W Demo.prepaid initial).1
    = Some "true" ∧
  Project.currency (Storage.createProject Demo.W Demo.prepaid initial).1
    = Some "EUR" ∧
  Project.status (Storage.createProject Demo.W Demo.prepaid initial).1
    ≠ "created" ∧
  Project.paymentStatus (Storage.createProject Demo.W Demo.prepaid initial).1
    ≠ Some "pending".
Proof. split_and!; try reflexivity; discriminate. Qed.


(** C7 fails: an upload the filter refuses is answered with the filter's
    error, not with "not found", also when the project id is unknown; and
    an upload without a file is answered 400. *)
Lemma upload_unknown_id_not_NotFound :
  projects initial !! "nope" = None ∧
  (Routes.uploadFile Demo.W "nope" (Some Demo.notesTxt) initial).1
    = NextError "Only STL, STEP, OBJ, and PLY files are allowed" ∧
  outcome (Routes.uploadFile Demo.W "nope" (Some Demo.notesTxt) initial).1
    ≠ NotFound ∧
  (Routes.uploadFile Demo.W "nope" None initial).1
    = Respond 400 (JsonMessage "No file uploaded") ∧
  outcome (Routes.uploadFile Demo.W "nope" None initial).1 ≠ NotFound.
Proof. split_and!; try reflexivity; by vm_compute. Qed.

(** C9 fails: with two activities in the log, the limit -1 returns one
    activity, which is more than -1; and the route called with limit 0
    returns both. *)
Lemma negative_limit_not_truncated :
  length (Storage.getRecentActivities (Some (-1))
            (serve Demo.W [PostProject (Some Demo.bracket); PostDeposit "uuid-0"]
               initial)).1 = 1%nat ∧
  ¬ (Z.of_nat (length (Storage.getRecentActivities (Some (-1))
            (serve Demo.W [PostProject (Some Demo.bracket); PostDeposit "uuid-0"]
               initial)).1) ≤ -1) ∧
  ∃ a b : Activity.t,
    (Routes.listRecentActivities (Some 0)
       (serve Demo.W [PostProject (Some Demo.bracket); PostDeposit "uuid-0"]
          initial)).1 = Respond 200 (JsonActivities [a; b]).
Proof.
  split_and!.
  - by vm_compute.
  - vm_compute. by intros H.
  - eexists _, _. vm_compute. reflexivity.
Qed.

(** * Further properties of the server *)

(** ** Reading back what was written *)

Section ReadBack.
Context (W : World).

(** X1.  In every state the server can reach, a project that a changing
    request sends back (creation, update, upload, deposit, buyer action,
    seller approval) is exactly what GET /api/projects/:id sends for its id
    right after. *)
Theorem read_your_writes (s : Server) (request : Request) (status : Z)
    (p : Project.t) :
  reachable W s →
  (handle W request s).1 = Respond status (JsonProject (Some p)) →
  ProjectQueries.getProject (Project.id p) (handle W request s).2
    = (Respond 200 (JsonProject (Some p)), (handle W request s).2).
Proof.
  intros [requests ->].
  pose proof (serve_wellFormed W requests initial (initial_wellFormed W)) as Hs.
  set (s := serve W requests initial) in *.
  assert (∀ (s' : Server) (q : Project.t),
    projects s' !! Project.id q = Some q →
    ProjectQueries.getProject (Project.id q) s'
      = (Respond 200 (JsonProject (Some q)), s')) as Hget.
  { intros s' q Hq.
    unfold ProjectQueries.getProject, bind, ret, Storage.getProject; cbn.
    by rewrite Hq. }
  destruct request as [parsed|i parsed|i incoming|i|i action|i].
  - destruct parsed as [input|]; unfold_routes; [|done].
    intros [= _ <-]. apply Hget. cbn. apply lookup_insert_eq.
  - destruct parsed as [updates|]; unfold_routes; [|done].
    destruct (projects s !! i) as [q|] eqn:Hq.
    + rewrite (updateProject_found W _ _ _ _ Hq); cbn.
      intros [= _ <-]. apply Hget. cbn.
      destruct (Hs i q Hq) as (-> & _). apply lookup_insert_eq.
    + by rewrite (updateProject_missing W _ _ _ Hq).
  - unfold_routes. destruct (Routes.uploadSingle W incoming); cbn;
      [done..|].
    destruct (projects s !! i) as [q|] eqn:Hq; cbn; [|done].
    rewrite (updateProject_found W _ _ _ _ Hq); cbn.
    rewrite lookup_insert_eq; cbn.
    intros [= _ <-]. apply Hget. cbn.
    destruct (Hs i q Hq) as (-> & _). apply lookup_insert_eq.
  - unfold_routes. destruct (projects s !! i) as [q|] eqn:Hq; cbn; [|done].
    rewrite (updateProject_found W _ _ _ _ Hq); cbn.
    intros [= _ <-]. apply Hget. cbn.
    destruct (Hs i q Hq) as (-> & _). apply lookup_insert_eq.
  - unfold_routes. destruct (projects s !! i) as [q|] eqn:Hq; cbn; [|done].
    rewrite (updateProject_found W _ _ _ _ Hq); cbn.
    intros [= _ <-]. apply Hget. cbn.
    destruct (Hs i q Hq) as (-> & _). apply lookup_insert_eq.
  - unfold_routes. destruct (projects s !! i) as [q|] eqn:Hq; cbn; [|done].
    rewrite (updateProject_found W _ _ _ _ Hq); cbn.
    intros [= _ <-]. apply Hget. cbn.
    destruct (Hs i q Hq) as (-> & _). apply lookup_insert_eq.
Qed.

End ReadBack.

(** ** What each handler does to an existing project *)

Section Handlers.
Context (W : World).

(** X2.  PATCH on an existing project answers 200 with the updated record
    and stores it: a workflow field the payload carries takes the payload's
    value (any value, [null] included), one it does not carry stays; [id],
    [createdAt] and the file metadata stay; [updatedAt] is the clock
    reading.  No activity is written, whatever the payload changes, and no
    other project is touched. *)
Theorem patch_effect (s : Server) (id : string) (p : Project.t)
    (updates : UpdateProject.t) :
  projects s !! id = Some p →
  ∃ p' : Project.t,
    (Routes.updateProject W id (Some updates) s).1
      = Respond 200 (JsonProject (Some p')) ∧
    projects (Routes.updateProject W id (Some updates) s).2 !! id = Some p' ∧
    Project.status p'
      = default (Project.status p) (UpdateProject.status updates) ∧
    Project.paymentStatus p'
      = default (Project.paymentStatus p) (UpdateProject.paymentStatus updates) ∧
    Project.buyerApproved p'
      = default (Project.buyerApproved p) (UpdateProject.buyerApproved updates) ∧
    Project.sellerApproved p'
      = default (Project.sellerApproved p)
          (UpdateProject.sellerApproved updates) ∧
    Project.id p' = Project.id p ∧
    Project.createdAt p' = Project.createdAt p ∧
    Project.updatedAt p' = Some (clockAt W (ticks s)) ∧
    (Project.fileName p', Project.fileSize p', Project.fileType p',
     Project.filePath p', Project.uploadedAt p')
      = (Project.fileName p, Project.fileSize p, Project.fileType p,
         Project.filePath p, Project.uploadedAt p) ∧
    activities (Routes.updateProject W id (Some updates) s).2 = activities s ∧
    ∀ k : string, k ≠ id →
      projects (Routes.updateProject W id (Some updates) s).2 !! k
        = projects s !! k.
Proof.
  intros Hp. unfold Routes.updateProject, bind, ret.
  rewrite (updateProject_found W _ _ _ _ Hp); cbn.
  eexists. split_and!; try reflexivity.
  - apply lookup_insert_eq.
  - intros k Hk. by rewrite lookup_insert_ne.
Qed.

(** X3.  A deposit on an existing project, whatever state it is in, sets
    [paymentStatus] to "held" and [status] to "payment_deposited" and keeps
    the approvals and the file metadata; it writes one "payment" activity
    that names the amount; no other project is touched. *)
Theorem deposit_effect (s : Server) (id : string) (p : Project.t) :
  projects s !! id = Some p →
  uuidAt W (drawn s) ∉ (activities s).*1 →
  ∃ (p' : Project.t) (a : Activity.t),
    (Routes.depositPayment W id s).1 = Respond 200 (JsonProject (Some p')) ∧
    projects (Routes.depositPayment W id s).2 !! id = Some p' ∧
    Project.paymentStatus p' = Some "held" ∧
    Project.status p' = "payment_deposited" ∧
    Project.buyerApproved p' = Project.buyerApproved p ∧
    Project.sellerApproved p' = Project.sellerApproved p ∧
    Project.filePath p' = Project.filePath p ∧
    activities (Routes.depositPayment W id s).2
      = (activities s ++ [(uuidAt W (drawn s), a)])%list ∧
    Activity.projectId a = id ∧
    Activity.type a = "payment" ∧
    Activity.description a
      = "Escrow payment of $" +:+ Project.amount p +:+ " deposited" ∧
    ∀ k : string, k ≠ id →
      projects (Routes.depositPayment W id s).2 !! k = projects s !! k.
Proof.
  intros Hp Hfresh. unfold_routes. rewrite Hp; cbn.
  rewrite (updateProject_found W _ _ _ _ Hp); cbn.
  rewrite (mapSet_fresh _ _ _ Hfresh).
  eexists _, _. split_and!; try reflexivity.
  - apply lookup_insert_eq.
  - intros k Hk. by rewrite lookup_insert_ne.
Qed.

(** X4.  An upload the filter accepts, on an existing project, stores the
    file's name, size (in decimal), type and path, sets [status] to
    "file_uploaded" and keeps [paymentStatus] and both approvals as they
    were, so a download gate that was open stays open for the new file; it
    writes one "upload" activity.  A preview right after, with the file on
    disk, sends this metadata back. *)
Theorem upload_effect (s : Server) (id : string) (p : Project.t)
    (file : MulterFile.t) :
  projects s !! id = Some p →
  uuidAt W (drawn s) ∉ (activities s).*1 →
  Routes.uploadSingle W (Some file) = Stored file →
  ∃ (p' : Project.t) (a : Activity.t),
    (Routes.uploadFile W id (Some file) s).1
      = Respond 200 (JsonProject (Some p')) ∧
    projects (Routes.uploadFile W id (Some file) s).2 !! id = Some p' ∧
    Project.fileName p' = Some (MulterFile.originalname file) ∧
    Project.fileSize p' = Some (pretty (MulterFile.size file)) ∧
    Project.fileType p' = Some (MulterFile.mimetype file) ∧
    Project.filePath p' = Some (MulterFile.path file) ∧
    Project.status p' = "file_uploaded" ∧
    Project.paymentStatus p' = Project.paymentStatus p ∧
    Project.buyerApproved p' = Project.buyerApproved p ∧
    Project.sellerApproved p' = Project.sellerApproved p ∧
    Routes.downloadAllowed p' = Routes.downloadAllowed p ∧
    activities (Routes.uploadFile W id (Some file) s).2
      = (activities s ++ [(uuidAt W (drawn s), a)])%list ∧
    Activity.projectId a = id ∧
    Activity.type a = "upload" ∧
    (MulterFile.path file ≠ EmptyString →
     existsSync W (MulterFile.path file) = true →
     (Routes.getFileInfo W id Js.undefined
        (Routes.uploadFile W id (Some file) s).2).1
       = Respond 200
           (JsonFileInfo (Some (MulterFile.originalname file))
              (Some (pretty (MulterFile.size file)))
              (Some (MulterFile.mimetype file))
              (Project.uploadedAt p') (Routes.downloadAllowed p))).
Proof.
  intros Hp Hfresh Hstored. unfold Routes.uploadFile. rewrite Hstored.
  unfold bind, ret, Storage.getProject; cbn. rewrite Hp; cbn.
  rewrite (updateProject_found W _ _ _ _ Hp); cbn.
  rewrite lookup_insert_eq; cbn.
  rewrite (mapSet_fresh _ _ _ Hfresh).
  eexists _, _. split_and!; try reflexivity.
  - apply lookup_insert_eq.
  - intros Hpath Hdisk.
    unfold Routes.getFileInfo, bind, ret, Storage.getProject; cbn.
    rewrite lookup_insert_eq; cbn.
    destruct (MulterFile.path file) as [|c rest] eqn:Hc; [done|].
    cbn. by rewrite Hdisk.
Qed.

(** X5.  The two approvals do not commute.  On a project the buyer has not
    approved yet: buyer first, then seller, and both flags are "true", the
    status is "completed" and the payment released; seller first, then
    buyer, and both flags are "true" as well, so the download gate is open,
    but the status is "under_review" and [paymentStatus] is what it was
    before. *)
Theorem approval_order (s : Server) (id : string) (p : Project.t) :
  projects s !! id = Some p →
  Project.buyerApproved p ≠ Some "true" →
  (∃ q : Project.t,
     projects (Routes.sellerApprove W id
                 (Routes.buyerAction W id (Js.str "approve") s).2).2 !! id
       = Some q ∧
     Routes.downloadAllowed q = true ∧
     Project.status q = "completed" ∧
     Project.paymentStatus q = Some "released") ∧
  (∃ q : Project.t,
     projects (Routes.buyerAction W id (Js.str "approve")
                 (Routes.sellerApprove W id s).2).2 !! id
       = Some q ∧
     Routes.downloadAllowed q = true ∧
     Project.status q = "under_review" ∧
     Project.paymentStatus q = Project.paymentStatus p).
Proof.
  intros Hp Hbuyer.
  assert (Js.fieldEq (Project.buyerApproved p) "true" = false) as Hno.
  { apply not_true_is_false. by rewrite fieldEq_true. }
  split.
  - unfold Routes.buyerAction at 1. unfold bind, ret, Storage.getProject; cbn.
    rewrite Hp; cbn. rewrite (updateProject_found W _ _ _ _ Hp); cbn.
    unfold Routes.sellerApprove, bind, ret, Storage.getProject; cbn.
    rewrite lookup_insert_eq; cbn.
    erewrite updateProject_found by (cbn; apply lookup_insert_eq).
    cbn. eexists. split; [apply lookup_insert_eq|]. by cbn.
  - unfold Routes.sellerApprove at 1. unfold bind, ret, Storage.getProject; cbn.
    rewrite Hp; cbn. rewrite (updateProject_found W _ _ _ _ Hp); cbn.
    unfold Routes.buyerAction, bind, ret, Storage.getProject; cbn.
    rewrite lookup_insert_eq; cbn.
    erewrite updateProject_found by (cbn; apply lookup_insert_eq).
    cbn. eexists. split; [apply lookup_insert_eq|].
    cbn. by rewrite Hno.
Qed.

End Handlers.

(** ** The activity log *)

Section ActivityLog.
Context (W : World).

Lemma mapSet_entries {V : Type} (k k' : string) (v v' : V)
    (m : list (string * V)) :
  (k', v') ∈ Js.mapSet k v m → (k', v') = (k, v) ∨ (k', v') ∈ m.
Proof.
  induction m as [|[k0 v0] m IH]; cbn.
  - intros ->%list_elem_of_singleton. by left.
  - destruct (String.eqb_spec k k0) as [->|_].
    + intros [->|H]%elem_of_cons; [by left|right; by right].
    + intros [->|H]%elem_of_cons; [right; left|].
      destruct (IH H) as [->|?]; [by left|right; by right].
Qed.

Lemma mapSet_values {V : Type} (k : string) (v v' : V)
    (m : list (string * V)) :
  v' ∈ Js.mapValues (Js.mapSet k v m) → v' = v ∨ v' ∈ Js.mapValues m.
Proof.
  unfold Js.mapValues. intros ([k' w] & -> & Hin)%list_elem_of_fmap.
  destruct (mapSet_entries _ _ _ _ _ Hin) as [[= _ ->]|H]; [by left|right].
  apply list_elem_of_fmap. by exists (k', w).
Qed.

(** No request removes a project. *)
Lemma handle_keeps_projects (request : Request) (s : Server) (k : string) :
  is_Some (projects s !! k) → is_Some (projects (handle W request s).2 !! k).
Proof.
  intros Hk.
  destruct (handle_shape W request s) as (_ & _ & [->|[Hupd|Hnew]]); [done| |].
  - destruct Hupd as (i & q & q' & n & _ & -> & _).
    rewrite lookup_insert. by case_decide.
  - destruct Hnew as (q' & -> & _). rewrite lookup_insert. by case_decide.
Qed.

(** What one request writes to the log, if anything: one activity, under
    an identifier it draws, stamped with a clock reading it takes, for a
    project that is in the store afterwards. *)
Lemma handle_activity_entry (request : Request) (s : Server) :
  activities (handle W request s).2 = activities s
  ∨ ∃ (n m : nat) (a : Activity.t),
      (drawn s ≤ n < drawn (handle W request s).2)%nat ∧
      (ticks s ≤ m < ticks (handle W request s).2)%nat ∧
      activities (handle W request s).2
        = Js.mapSet (uuidAt W n) a (activities s) ∧
      Activity.id a = uuidAt W n ∧
      Activity.createdAt a = Some (clockAt W m) ∧
      is_Some (projects (handle W request s).2 !! Activity.projectId a).
Proof.
  destruct request as [parsed|i parsed|i incoming|i|i action|i].
  - destruct parsed as [input|]; unfold_routes; [|by left].
    right. eexists (S (drawn s)), (S (ticks s)), _.
    split_and!; try done; try lia. cbn. rewrite lookup_insert_eq. by eexists.
  - destruct parsed as [updates|]; unfold_routes; [|by left].
    destruct (projects s !! i) as [q|] eqn:Hq.
    + rewrite (updateProject_found W _ _ _ _ Hq); cbn. by left.
    + rewrite (updateProject_missing W _ _ _ Hq); cbn. by left.
  - unfold_routes. destruct (Routes.uploadSingle W incoming); cbn;
      [by left..|].
    destruct (projects s !! i) as [q|] eqn:Hq; cbn; [|by left].
    rewrite (updateProject_found W _ _ _ _ Hq); cbn.
    rewrite lookup_insert_eq; cbn.
    right. eexists (drawn s), (S (S (ticks s))), _.
    split_and!; try done; try lia. cbn. rewrite lookup_insert_eq. by eexists.
  - unfold_routes. destruct (projects s !! i) as [q|] eqn:Hq; cbn;
      [|by left].
    rewrite (updateProject_found W _ _ _ _ Hq); cbn.
    right. eexists (drawn s), (S (ticks s)), _.
    split_and!; try done; try lia. cbn. rewrite lookup_insert_eq. by eexists.
  - unfold_routes. destruct (projects s !! i) as [q|] eqn:Hq; cbn;
      [|by left].
    rewrite (updateProject_found W _ _ _ _ Hq); cbn.
    right. eexists (drawn s), (S (ticks s)), _.
    split_and!; try done; try lia. cbn. rewrite lookup_insert_eq. by eexists.
  - unfold_routes. destruct (projects s !! i) as [q|] eqn:Hq; cbn;
      [|by left].
    rewrite (updateProject_found W _ _ _ _ Hq); cbn.
    right. eexists (drawn s), (S (ticks s)), _.
    split_and!; try done; try lia. cbn. rewrite lookup_insert_eq. by eexists.
Qed.

Lemma handle_logSound (request : Request) (s : Server) :
  logSound s → logSound (handle W request s).2.
Proof.
  intros Hs k a.
  destruct (handle_activity_entry request s)
    as [->|(n & m & a' & _ & _ & -> & Hid & Htime & Hproj)].
  - intros Hin. destruct (Hs k a Hin) as (Hk & Ht & Hp).
    split_and!; [done..|]. by apply handle_keeps_projects.
  - intros [[= -> ->]|Hin]%mapSet_entries.
    + split_and!; [done| |done]. rewrite Htime. by eexists.
    + destruct (Hs k a Hin) as (Hk & Ht & Hp).
      split_and!; [done..|]. by apply handle_keeps_projects.
Qed.

Lemma initial_logSound : logSound initial.
Proof. intros k a Hin. cbn in Hin. by apply elem_of_nil in Hin. Qed.

Lemma serve_logSound (requests : list Request) (s : Server) :
  logSound s → logSound (serve W requests s).
Proof.
  revert s. induction requests as [|request requests IH]; intros s Hs; [done|].
  cbn. apply IH. by apply handle_logSound.
Qed.

(** X6.  In every state the server can reach, every entry of the activity
    log is stored under its own id, has a creation time, and refers to a
    project that is in the store. *)
Theorem reachable_logSound (s : Server) : reachable W s → logSound s.
Proof. intros [requests ->]. apply serve_logSound, initial_logSound. Qed.

(** X18.  GET /api/projects/:id/activities does not answer 404 for an
    unknown project: in every reachable state it answers 200 with the empty
    list, since no activity refers to a project that is not in the store. *)
Theorem listActivities_unknown_id (s : Server) (id : string) :
  reachable W s → projects s !! id = None →
  Routes.listActivities id s = (Respond 200 (JsonActivities []), s).
Proof.
  intros [requests ->] Hid.
  pose proof (serve_logSound requests initial initial_logSound) as Hlog.
  set (s := serve W requests initial) in *.
  unfold Routes.listActivities, bind, ret, Storage.getActivitiesByProject; cbn.
  assert (filter (λ activity, Activity.projectId activity = id)
            (Js.mapValues (activities s)) = []) as ->; [|done].
  apply elem_of_nil_inv. intros a [Hpid Hin]%list_elem_of_filter.
  unfold Js.mapValues in Hin.
  apply list_elem_of_fmap in Hin as ([k a'] & -> & Hin).
  destruct (Hlog k a' Hin) as (_ & _ & [q Hq]). cbn in Hpid.
  rewrite Hpid in Hq. congruence.
Qed.

(** X7.  A request that is not answered with success leaves the whole
    server as it was: no project is changed and no activity written. *)
Theorem failure_changes_nothing (request : Request) (s : Server) :
  outcome (handle W request s).1 ≠ Success → (handle W request s).2 = s.
Proof.
  destruct request as [parsed|i parsed|i incoming|i|i action|i].
  - destruct parsed as [input|]; unfold_routes; [|done]. by intros [].
  - destruct parsed as [updates|]; unfold_routes; [|done].
    destruct (projects s !! i) as [q|] eqn:Hq.
    + rewrite (updateProject_found W _ _ _ _ Hq); cbn. by intros [].
    + by rewrite (updateProject_missing W _ _ _ Hq).
  - unfold_routes. destruct (Routes.uploadSingle W incoming); cbn;
      [done..|].
    destruct (projects s !! i) as [q|] eqn:Hq; cbn; [|done].
    rewrite (updateProject_found W _ _ _ _ Hq); cbn.
    rewrite lookup_insert_eq; cbn. by intros [].
  - unfold_routes. destruct (projects s !! i) as [q|] eqn:Hq; cbn; [|done].
    rewrite (updateProject_found W _ _ _ _ Hq); cbn. by intros [].
  - unfold_routes. destruct (projects s !! i) as [q|] eqn:Hq; cbn; [|done].
    rewrite (updateProject_found W _ _ _ _ Hq); cbn. by intros [].
  - unfold_routes. destruct (projects s !! i) as [q|] eqn:Hq; cbn; [|done].
    rewrite (updateProject_found W _ _ _ _ Hq); cbn. by intros [].
Qed.

Lemma later_draw_fresh (s : Server) (n : nat) :
  neverRepeats W → activitiesDrawn W s → (drawn s ≤ n)%nat →
  uuidAt W n ∉ (activities s).*1.
Proof.
  intros Huuid Hs Hn Hin. destruct (Hs _ Hin) as (i & Hi & Heq).
  apply Huuid in Heq. lia.
Qed.

(** X8.  The log is append-only.  In every reachable state of a world where
    identifiers never repeat, a request answered with success that is not
    an update (PATCH) adds exactly one activity at the end of the log and
    leaves the earlier entries as they are; an update adds none. *)
Theorem log_append_only (s : Server) (request : Request) :
  neverRepeats W → reachable W s →
  outcome (handle W request s).1 = Success →
  (∀ i parsed, request = PatchProject i parsed →
     activities (handle W request s).2 = activities s) ∧
  ((∀ i parsed, request ≠ PatchProject i parsed) →
     ∃ a : Activity.t,
       activities (handle W request s).2
         = (activities s ++ [(Activity.id a, a)])%list).
Proof.
  intros Huuid [requests ->] Hok.
  pose proof (serve_activitiesDrawn W requests initial) as Hdrawn.
  set (s := serve W requests initial) in *.
  assert (activitiesDrawn W s) as Hs.
  { apply Hdrawn. intros k Hin. cbn in Hin. by apply elem_of_nil in Hin. }
  assert (∀ (n : nat) (a : Activity.t), (drawn s ≤ n)%nat →
    Activity.id a = uuidAt W n →
    ∃ a' : Activity.t,
      Js.mapSet (uuidAt W n) a (activities s)
        = (activities s ++ [(Activity.id a', a')])%list) as Happend.
  { intros n a Hn Hid. exists a. rewrite Hid. apply mapSet_fresh.
    by apply later_draw_fresh. }
  split.
  - intros i parsed ->. destruct parsed as [updates|]; unfold_routes; [|done].
    destruct (projects s !! i) as [q|] eqn:Hq.
    + by rewrite (updateProject_found W _ _ _ _ Hq).
    + by rewrite (updateProject_missing W _ _ _ Hq).
  - intros Hpatch. revert Hok.
    destruct request as [parsed|i parsed|i incoming|i|i action|i].
    + destruct parsed as [input|]; unfold_routes; [|done].
      intros _. apply (Happend (S (drawn s))); [lia|done].
    + by destruct (Hpatch i parsed).
    + unfold_routes. destruct (Routes.uploadSingle W incoming); cbn;
        [done..|].
      destruct (projects s !! i) as [q|] eqn:Hq; cbn; [|done].
      rewrite (updateProject_found W _ _ _ _ Hq); cbn.
      rewrite lookup_insert_eq; cbn.
      intros _. apply (Happend (drawn s)); [lia|done].
    + unfold_routes. destruct (projects s !! i) as [q|] eqn:Hq; cbn; [|done].
      rewrite (updateProject_found W _ _ _ _ Hq); cbn.
      intros _. apply (Happend (drawn s)); [lia|done].
    + unfold_routes. destruct (projects s !! i) as [q|] eqn:Hq; cbn; [|done].
      rewrite (updateProject_found W _ _ _ _ Hq); cbn.
      intros _. apply (Happend (drawn s)); [lia|done].
    + unfold_routes. destruct (projects s !! i) as [q|] eqn:Hq; cbn; [|done].
      rewrite (updateProject_found W _ _ _ _ Hq); cbn.
      intros _. apply (Happend (drawn s)); [lia|done].
Qed.

Lemma mapSet_keeps_keys {V : Type} (k k' : string) (v : V)
    (m : list (string * V)) :
  k' ∈ m.*1 → k' ∈ (Js.mapSet k v m).*1.
Proof.
  induction m as [|[k0 v0] m IH]; cbn; [by intros ?%elem_of_nil|].
  destruct (String.eqb_spec k k0) as [->|_]; cbn; [done|].
  intros [->|H]%elem_of_cons; [left|right; by apply IH].
Qed.

(** X9.  Nothing is ever deleted: after any request, every project id that
    was in the store is still in the store, and so is every key of the
    activity log. *)
Theorem nothing_deleted (request : Request) (s : Server) (k : string) :
  (is_Some (projects s !! k) →
     is_Some (projects (handle W request s).2 !! k)) ∧
  (k ∈ (activities s).*1 → k ∈ (activities (handle W request s).2).*1).
Proof.
  split; [apply handle_keeps_projects|].
  destruct (handle_activity_entry request s)
    as [->|(n & m & a & _ & _ & -> & _)]; [done|].
  apply mapSet_keeps_keys.
Qed.

Lemma Sorted_snoc_all (l : list Activity.t) (a : Activity.t) :
  Sorted notNewer l → (∀ b, b ∈ l → notNewer b a) →
  Sorted notNewer (l ++ [a]).
Proof.
  induction 1 as [|b l Hl IH Hb]; intros Hall; cbn.
  - by repeat constructor.
  - constructor.
    + apply IH. intros c Hc. apply Hall. by right.
    + destruct Hb; cbn; constructor; [apply Hall; by left|done].
Qed.

Lemma handle_chronological (request : Request) (s : Server) :
  neverRepeats W → neverGoesBack W → activitiesDrawn W s →
  logTimed W s → Sorted notNewer (Js.mapValues (activities s)) →
  logTimed W (handle W request s).2
  ∧ Sorted notNewer (Js.mapValues (activities (handle W request s).2)).
Proof.
  intros Huuid Hclock Hdrawn Htimed Hsorted.
  destruct (handle_shape W request s) as (Hd & Ht & _).
  unfold logTimed.
  destruct (handle_activity_entry request s)
    as [->|(n & m & a & Hn & Hm & -> & Hid & Htime & _)].
  - split; [|done]. intros a Ha.
    destruct (Htimed a Ha) as (i & Hi & Heq). exists i. split; [lia|done].
  - rewrite mapSet_fresh by (apply later_draw_fresh; [done..|lia]).
    unfold Js.mapValues. rewrite map_app. cbn. split.
    + intros b [Hb|Hb%list_elem_of_singleton]%elem_of_app.
      * destruct (Htimed b Hb) as (i & Hi & Heq). exists i. split; [lia|done].
      * subst b. exists m. split; [lia|done].
    + apply Sorted_snoc_all; [done|].
      intros b Hb. destruct (Htimed b Hb) as (i & Hi & Heq).
      unfold notNewer, Storage.timeOrZero. rewrite Heq, Htime. cbn.
      apply Hclock. lia.
Qed.

(** X10.  In a world where identifiers never repeat and the clock never
    goes back, the activity log of every reachable state, read in the order
    of insertion, is in the order of creation time. *)
Theorem log_chronological (s : Server) :
  neverRepeats W → neverGoesBack W → reachable W s →
  Sorted notNewer (Js.mapValues (activities s)).
Proof.
  intros Huuid Hclock [requests ->].
  assert (∀ s0, activitiesDrawn W s0 → logTimed W s0 →
            Sorted notNewer (Js.mapValues (activities s0)) →
            Sorted notNewer (Js.mapValues (activities (serve W requests s0))))
    as Hserve.
  { induction requests as [|request requests IH]; intros s0 Hd Ht Hs; [done|].
    cbn. destruct (handle_chronological request s0) as [Ht' Hs']; try done.
    apply IH; [by apply handle_activitiesDrawn|done..]. }
  apply Hserve.
  - intros k Hin. cbn in Hin. by apply elem_of_nil in Hin.
  - intros a Hin. cbn in Hin. by apply elem_of_nil in Hin.
  - constructor.
Qed.

End ActivityLog.

(** ** Listings, again *)

Section MoreListings.

(** X11.  Ties keep the order of insertion: in the listing of a project's
    activities, and in the listing of all activities before it is cut, the
    activities with one and the same creation time stand in the order in
    which they were written to the log. *)
Theorem listing_stable (s : Server) (projectId : string) (t : Z) :
  filter (λ a, Storage.timeOrZero a = t)
    (Storage.getActivitiesByProject projectId s).1
  = filter (λ a, Storage.timeOrZero a = t)
      (filter (λ a, Activity.projectId a = projectId)
         (Js.mapValues (activities s))) ∧
  filter (λ a, Storage.timeOrZero a = t)
    (Js.sort Storage.newestFirst (Js.mapValues (activities s)))
  = filter (λ a, Storage.timeOrZero a = t) (Js.mapValues (activities s)).
Proof.
  split.
  - apply (sort_stable Storage.timeOrZero), newestFirst_key.
  - apply (sort_stable Storage.timeOrZero), newestFirst_key.
Qed.

(** X12.  The limit of [getRecentActivities] at its edges: a limit that is
    at least the size of the log returns every activity, newest first; a
    negative limit -k does not return an empty list but drops the k oldest
    activities from that listing, and returns nothing only when k is at
    least the size of the log. *)
Theorem recent_limit_edges (s : Server) (limit : Z) :
  (Z.of_nat (length (activities s)) ≤ limit →
     (Storage.getRecentActivities (Some limit) s).1
       = Js.sort Storage.newestFirst (Js.mapValues (activities s))) ∧
  (limit < 0 →
     (Storage.getRecentActivities (Some limit) s).1
       = take (length (activities s) - Z.to_nat (- limit))
           (Js.sort Storage.newestFirst (Js.mapValues (activities s))) ∧
     length (Storage.getRecentActivities (Some limit) s).1
       = (length (activities s) - Z.to_nat (- limit))%nat).
Proof.
  assert (length (Js.sort Storage.newestFirst (Js.mapValues (activities s)))
            = length (activities s)) as Hlen.
  { rewrite (sort_Permutation Storage.newestFirst).
    unfold Js.mapValues. by rewrite length_map. }
  split.
  - intros Hbig. unfold Storage.getRecentActivities, Js.slice0; cbn.
    apply take_ge. rewrite Hlen. unfold Js.sliceEnd.
    destruct (Z.ltb_spec limit 0); lia.
  - intros Hneg.
    assert ((Storage.getRecentActivities (Some limit) s).1
       = take (length (activities s) - Z.to_nat (- limit))
           (Js.sort Storage.newestFirst (Js.mapValues (activities s))))
      as Heq.
    { unfold Storage.getRecentActivities, Js.slice0; cbn. f_equal.
      rewrite Hlen. unfold Js.sliceEnd.
      destruct (Z.ltb_spec limit 0); lia. }
    split; [done|]. rewrite Heq, length_take, Hlen. lia.
Qed.

End MoreListings.

(** ** File access without a file *)

Section NoFile.
Context (W : World).

(** X13.  GET /api/projects/:id/file answers 404 when the id is unknown and
    when the project has no file yet (its [filePath] is [null] or empty),
    whether or not a download is asked for and whatever the approvals are:
    "not found" comes before "forbidden".  With a file recorded but gone
    from disk, a request that is not forbidden is answered 404 as well.
    Nothing is changed. *)
Theorem file_not_found (s : Server) (id : string) (download : Js.value) :
  (projects s !! id = None →
     Routes.getFileInfo W id download s
       = (Respond 404 (JsonMessage "File not found"), s)) ∧
  (∀ p : Project.t, projects s !! id = Some p →
     Js.truthy (Project.filePath p) = false →
     Routes.getFileInfo W id download s
       = (Respond 404 (JsonMessage "File not found"), s)) ∧
  (∀ p : Project.t, projects s !! id = Some p →
     Js.truthy (Project.filePath p) = true →
     existsSync W (default EmptyString (Project.filePath p)) = false →
     download ≠ Js.str "true" ∨ Routes.downloadAllowed p = true →
     Routes.getFileInfo W id download s
       = (Respond 404 (JsonMessage "File not found on disk"), s)).
Proof.
  split_and!.
  - intros Hp. unfold Routes.getFileInfo, bind, ret, Storage.getProject; cbn.
    by rewrite Hp.
  - intros p Hp Hfile.
    unfold Routes.getFileInfo, bind, ret, Storage.getProject; cbn.
    by rewrite Hp, Hfile.
  - intros p Hp Hfile Hdisk Hok.
    unfold Routes.getFileInfo, bind, ret, Storage.getProject; cbn.
    rewrite Hp, Hfile, Hdisk; cbn.
    destruct Hok as [Hd|Hgate].
    + assert (Js.strictEq download "true" = false) as ->; [|done].
      apply not_true_is_false. by rewrite strictEq_true.
    + unfold Routes.downloadAllowed in Hgate.
      apply andb_true_iff in Hgate as [-> ->]. cbn.
      by rewrite andb_false_r.
Qed.

End NoFile.

(** ** Listing projects *)

Section ProjectListing.

Lemma eqString_true (x : string) (v : Js.value) :
  JsValue.eqString x v = true ↔ v = Js.str x.
Proof.
  destruct v; cbn; try done.
  rewrite String.eqb_eq. split; [by intros ->|by intros [= ->]].
Qed.

Lemma listed_stored (order : list string) (s : Server) (p : Project.t) :
  p ∈ omap (λ id, projects s !! id) order ↔
  ∃ k : string, k ∈ order ∧ projects s !! k = Some p.
Proof. apply list_elem_of_omap. Qed.

(** X14.  Listing projects by a participant's e-mail address returns
    exactly the stored projects whose [buyerEmail] or [sellerEmail] is that
    address, in the order in which the store lists all projects; the route
    filters when it is given an address and lists every project when the
    [email] parameter is missing or empty.  Neither changes the server. *)
Theorem projects_by_email (order : list string) (s : Server)
    (email : string) :
  enumerates order s →
  (∀ p : Project.t,
     p ∈ (ProjectQueries.getProjectsByEmail order (Js.str email) s).1 ↔
     (∃ k : string, projects s !! k = Some p) ∧
     (Project.buyerEmail p = email ∨ Project.sellerEmail p = Some email)) ∧
  (ProjectQueries.getProjectsByEmail order (Js.str email) s).1
    `sublist_of` (ProjectQueries.getAllProjects order s).1 ∧
  (∀ p : Project.t,
     p ∈ (ProjectQueries.getAllProjects order s).1 ↔
     ∃ k : string, projects s !! k = Some p) ∧
  (email ≠ EmptyString →
     ProjectQueries.listProjects order (Js.str email) s
       = (JsonProjects 200
            (ProjectQueries.getProjectsByEmail order (Js.str email) s).1, s)) ∧
  ProjectQueries.listProjects order (Js.str EmptyString) s
    = (JsonProjects 200 (ProjectQueries.getAllProjects order s).1, s) ∧
  ProjectQueries.listProjects order Js.undefined s
    = (JsonProjects 200 (ProjectQueries.getAllProjects order s).1, s).
Proof.
  intros Horder.
  assert (∀ p : Project.t,
     p ∈ (ProjectQueries.getAllProjects order s).1 ↔
     ∃ k : string, projects s !! k = Some p) as Hall.
  { intros p. cbn. rewrite listed_stored. split.
    - intros (k & _ & Hk). by exists k.
    - intros (k & Hk). exists k. split; [|done]. apply Horder. by eexists. }
  split_and!; try done.
  - intros p. unfold ProjectQueries.getProjectsByEmail. cbn [fst].
    rewrite list_elem_of_In, filter_In, <- list_elem_of_In.
    rewrite orb_true_iff, eqString_true.
    change (p ∈ omap (λ id, projects s !! id) order)
      with (p ∈ (ProjectQueries.getAllProjects order s).1).
    rewrite Hall.
    assert (JsValue.eqNullable (Project.sellerEmail p) (Js.str email) = true
              ↔ Project.sellerEmail p = Some email) as ->.
    { destruct (Project.sellerEmail p) as [e|]; cbn; [|done].
      rewrite String.eqb_eq. split; [by intros ->|by intros [= ->]]. }
    split; intros [H1 [H2|H2]]; (split; [done|]); auto.
    + left. by injection H2.
    + left. by rewrite H2.
  - cbn. induction (omap (λ id, projects s !! id) order) as [|p l IH]; cbn;
      [done|].
    destruct (_ || _); by constructor.
  - intros Hne. unfold ProjectQueries.listProjects.
    destruct email; [done|]. reflexivity.
Qed.

End ProjectListing.

(** ** Users *)

Section UserStore.
Context (W : World).

Lemma mapGet_mapSet {V : Type} (k k' : string) (v : V)
    (m : list (string * V)) :
  JsValue.mapGet k' (Js.mapSet k v m)
    = if decide (k' = k) then Some v else JsValue.mapGet k' m.
Proof.
  induction m as [|[k0 v0] m IH]; cbn.
  - destruct (String.eqb_spec k' k); by case_decide.
  - destruct (String.eqb_spec k k0) as [->|Hk]; cbn.
    + destruct (String.eqb_spec k' k0); by case_decide.
    + destruct (String.eqb_spec k' k0) as [->|Hk'].
      * by rewrite decide_False by done.
      * apply IH.
Qed.

(** X15.  A user just created is found again under the id it was given, and
    whatever was stored under any other id is still found as before. *)
Theorem createUser_getUser (s : UserStore.t) (insertUser : InsertUser.t)
    (id : string) :
  Users.getUser (User.id (Users.createUser W insertUser s).1)
    (Users.createUser W insertUser s).2
    = Some (Users.createUser W insertUser s).1 ∧
  User.username (Users.createUser W insertUser s).1
    = InsertUser.username insertUser ∧
  User.password (Users.createUser W insertUser s).1
    = InsertUser.password insertUser ∧
  (id ≠ User.id (Users.createUser W insertUser s).1 →
     Users.getUser id (Users.createUser W insertUser s).2
       = Users.getUser id s).
Proof.
  unfold Users.getUser, Users.createUser; cbn. split_and!; try done.
  - rewrite mapGet_mapSet. by rewrite decide_True.
  - intros Hne. rewrite mapGet_mapSet. by rewrite decide_False.
Qed.

Lemma find_app_cases {A : Type} (f : A → bool) (l : list A) (x : A) :
  List.find f (l ++ [x])
    = match List.find f l with
      | Some y => Some y
      | None => if f x then Some x else None
      end.
Proof.
  induction l as [|y l IH]; cbn; [done|].
  by destruct (f y).
Qed.

(** X16.  [getUserByUsername] finds the first user stored with the name, and
    none only when no stored user has it.  The store does not keep names
    unique: creating a user under a name that is taken succeeds, and the
    name still finds the earlier user; under a free name, it finds the new
    one. *)
Theorem getUserByUsername_first (s : UserStore.t) (username : string)
    (insertUser : InsertUser.t) :
  uuidAt W (UserStore.drawn s) ∉ (UserStore.users s).*1 →
  InsertUser.username insertUser = username →
  (∀ u : User.t, Users.getUserByUsername username s = Some u →
     User.username u = username ∧
     u ∈ Js.mapValues (UserStore.users s) ∧
     Users.getUserByUsername username (Users.createUser W insertUser s).2
       = Some u ∧
     (Users.createUser W insertUser s).1
       ∈ Js.mapValues (UserStore.users (Users.createUser W insertUser s).2)) ∧
  (Users.getUserByUsername username s = None →
     (∀ u : User.t, u ∈ Js.mapValues (UserStore.users s) →
        User.username u ≠ username) ∧
     Users.getUserByUsername username (Users.createUser W insertUser s).2
       = Some (Users.createUser W insertUser s).1).
Proof.
  intros Hfresh Hname.
  assert (Js.mapValues
            (UserStore.users (Users.createUser W insertUser s).2)
          = (Js.mapValues (UserStore.users s)
               ++ [(Users.createUser W insertUser s).1])%list) as Hvalues.
  { cbn. rewrite mapSet_fresh by done. unfold Js.mapValues.
    by rewrite map_app. }
  unfold Users.getUserByUsername. rewrite Hvalues, find_app_cases. split.
  - intros u Hu. rewrite Hu. split_and!; [| |done|].
    + apply find_some in Hu as [_ Hu]. by apply String.eqb_eq in Hu.
    + apply find_some in Hu as [Hu _]. by apply list_elem_of_In.
    + apply elem_of_app. right. by apply list_elem_of_singleton.
  - intros Hnone. rewrite Hnone. split.
    + intros u Hu Heq. apply list_elem_of_In in Hu.
      pose proof (find_none _ _ Hnone u Hu) as Hf. cbn in Hf.
      apply String.eqb_neq in Hf. done.
    + cbn. rewrite Hname. by rewrite String.eqb_refl.
Qed.

End UserStore.

(** ** Creation through the route *)

Section CreateRoute.
Context (W : World).

(** X17.  POST /api/projects with a valid payload answers 201 with the new
    project, stores it under the identifier drawn, leaves every other
    project as it was and writes one "created" activity that refers to the
    new project and quotes its title; with a payload the schema rejects it
    answers 400 and changes nothing. *)
Theorem createProject_route (s : Server) (input : InsertProject.t) :
  uuidAt W (S (drawn s)) ∉ (activities s).*1 →
  (∃ (p : Project.t) (a : Activity.t),
     (Routes.createProject W (Some input) s).1
       = Respond 201 (JsonProject (Some p)) ∧
     p = (Storage.createProject W input s).1 ∧
     projects (Routes.createProject W (Some input) s).2 !! uuidAt W (drawn s)
       = Some p ∧
     (∀ k : string, k ≠ uuidAt W (drawn s) →
        projects (Routes.createProject W (Some input) s).2 !! k
          = projects s !! k) ∧
     activities (Routes.createProject W (Some input) s).2
       = (activities s ++ [(uuidAt W (S (drawn s)), a)])%list ∧
     Activity.projectId a = Project.id p ∧
     Activity.type a = "created" ∧
     Activity.description a
       = "Project " +:+ dquote +:+ InsertProject.title input +:+ dquote
           +:+ " created") ∧
  Routes.createProject W None s
    = (Respond 400 (JsonMessage "Invalid project data"), s).
Proof.
  intros Hfresh. split; [|done].
  unfold Routes.createProject, bind, ret; cbn.
  rewrite (mapSet_fresh _ _ _ Hfresh).
  eexists _, _. split_and!; try reflexivity.
  - apply lookup_insert_eq.
  - intros k Hk. by rewrite lookup_insert_ne.
Qed.

End CreateRoute.

(** ** The further properties at concrete inputs *)

Lemma sample_created_reachable : reachable Demo.W Sample.created.
Proof. by eexists. Qed.

Lemma sample_deposited_reachable : reachable Demo.W Sample.deposited.
Proof. by eexists. Qed.

(** The project a deposit sends back is the one GET sends next. *)
Lemma read_your_writes_witness :
  reachable Demo.W Sample.created ∧
  ∃ p : Project.t,
    (handle Demo.W (PostDeposit "uuid-0") Sample.created).1
      = Respond 200 (JsonProject (Some p)) ∧
    Project.id p = "uuid-0" ∧
    (ProjectQueries.getProject "uuid-0"
       (handle Demo.W (PostDeposit "uuid-0") Sample.created).2).1
      = Respond 200 (JsonProject (Some p)).
Proof.
  split; [exact sample_created_reachable|].
  assert (∃ p : Project.t,
    (handle Demo.W (PostDeposit "uuid-0") Sample.created).1
      = Respond 200 (JsonProject (Some p)) ∧ Project.id p = "uuid-0")
    as (p & Hr & Hid) by (eexists; split; by vm_compute).
  exists p. split_and!; [done..|].
  pose proof (read_your_writes Demo.W Sample.created (PostDeposit "uuid-0")
                200 p sample_created_reachable Hr) as Hget.
  rewrite Hid in Hget. by rewrite Hget.
Defined.

(** A PATCH that completes and releases by hand, and leaves no trace in the
    log. *)
Lemma patch_effect_witness :
  projects (Demo.store (Demo.project "false" "false" "pending")) !! "p1"
    = Some (Demo.project "false" "false" "pending") ∧
  ∃ p' : Project.t,
    projects (Routes.updateProject Demo.W "p1"
       (Some {| UpdateProject.title := None;
                UpdateProject.description := None;
                UpdateProject.amount := None;
                UpdateProject.status := Some "completed";
                UpdateProject.buyerEmail := None;
                UpdateProject.sellerEmail := None;
                UpdateProject.createdBy := None;
                UpdateProject.paymentStatus := Some (Some "released");
                UpdateProject.buyerApproved := None;
                UpdateProject.sellerApproved := None;
                UpdateProject.currency := None;
                UpdateProject.deadline := None |})
       (Demo.store (Demo.project "false" "false" "pending"))).2 !! "p1"
      = Some p' ∧
    Project.status p' = "completed" ∧
    Project.paymentStatus p' = Some "released" ∧
    Project.buyerApproved p' = Some "false".
Proof.
  assert (projects (Demo.store (Demo.project "false" "false" "pending")) !! "p1"
    = Some (Demo.project "false" "false" "pending")) as Hp
    by (vm_compute; reflexivity).
  split; [exact Hp|].
  destruct (patch_effect Demo.W _ _ _
    {| UpdateProject.title := None;
       UpdateProject.description := None;
       UpdateProject.amount := None;
       UpdateProject.status := Some "completed";
       UpdateProject.buyerEmail := None;
       UpdateProject.sellerEmail := None;
       UpdateProject.createdBy := None;
       UpdateProject.paymentStatus := Some (Some "released");
       UpdateProject.buyerApproved := None;
       UpdateProject.sellerApproved := None;
       UpdateProject.currency := None;
       UpdateProject.deadline := None |} Hp)
    as (p' & _ & Hp' & Hs & Hpay & Hb & _).
  by exists p'.
Defined.

(** A deposit on a project whose payment was released. *)
Lemma deposit_effect_witness :
  projects (Demo.store (Demo.project "true" "true" "released")) !! "p1"
    = Some (Demo.project "true" "true" "released") ∧
  ∃ p' : Project.t,
    projects (Routes.depositPayment Demo.W "p1"
                (Demo.store (Demo.project "true" "true" "released"))).2 !! "p1"
      = Some p' ∧
    Project.paymentStatus p' = Some "held" ∧
    Project.status p' = "payment_deposited".
Proof.
  assert (projects (Demo.store (Demo.project "true" "true" "released")) !! "p1"
    = Some (Demo.project "true" "true" "released")) as Hp
    by (vm_compute; reflexivity).
  split; [exact Hp|].
  destruct (deposit_effect Demo.W _ _ _ Hp (not_elem_of_nil _))
    as (p' & a & _ & Hp' & Hpay & Hs & _).
  by exists p'.
Defined.

(** A new upload to a completed project: the gate stays open. *)
Lemma upload_effect_witness :
  projects (Demo.store (Demo.project "true" "true" "released")) !! "p1"
    = Some (Demo.project "true" "true" "released") ∧
  Routes.uploadSingle Demo.W (Some Demo.partStl) = Stored Demo.partStl ∧
  ∃ p' : Project.t,
    projects (Routes.uploadFile Demo.W "p1" (Some Demo.partStl)
                (Demo.store (Demo.project "true" "true" "released"))).2 !! "p1"
      = Some p' ∧
    Project.status p' = "file_uploaded" ∧
    Project.fileSize p' = Some "2097152" ∧
    Routes.downloadAllowed p' = true.
Proof.
  assert (projects (Demo.store (Demo.project "true" "true" "released")) !! "p1"
    = Some (Demo.project "true" "true" "released")) as Hp
    by (vm_compute; reflexivity).
  assert (Routes.uploadSingle Demo.W (Some Demo.partStl) = Stored Demo.partStl)
    as Hstored by (by vm_compute).
  split; [exact Hp|]. split; [exact Hstored|].
  destruct (upload_effect Demo.W _ _ _ _ Hp (not_elem_of_nil _) Hstored)
    as (p' & a & _ & Hp' & _ & Hsize & _ & _ & Hs & _ & _ & _ & Hgate & _).
  exists p'. split_and!; [done..| |].
  - rewrite Hsize. by vm_compute.
  - by rewrite Hgate.
Defined.

(** Seller first, then buyer: the gate is open, the payment still held. *)
Lemma approval_order_witness :
  projects (Demo.store (Demo.project "false" "false" "held")) !! "p1"
    = Some (Demo.project "false" "false" "held") ∧
  Project.buyerApproved (Demo.project "false" "false" "held") ≠ Some "true" ∧
  ∃ q : Project.t,
    projects (Routes.buyerAction Demo.W "p1" (Js.str "approve")
                (Routes.sellerApprove Demo.W "p1"
                   (Demo.store (Demo.project "false" "false" "held"))).2).2
      !! "p1" = Some q ∧
    Routes.downloadAllowed q = true ∧
    Project.status q = "under_review" ∧
    Project.paymentStatus q = Some "held".
Proof.
  assert (projects (Demo.store (Demo.project "false" "false" "held")) !! "p1"
    = Some (Demo.project "false" "false" "held")) as Hp
    by (vm_compute; reflexivity).
  assert (Project.buyerApproved (Demo.project "false" "false" "held")
            ≠ Some "true") as Hb by discriminate.
  split; [exact Hp|]. split; [exact Hb|].
  destruct (approval_order Demo.W _ _ _ Hp Hb) as [_ (q & Hq & Hg & Hs & Hpay)].
  by exists q.
Defined.

(** The log after a creation and a deposit. *)
Lemma reachable_logSound_witness :
  reachable Demo.W Sample.deposited ∧
  ∀ (k : string) (a : Activity.t), (k, a) ∈ activities Sample.deposited →
    Activity.id a = k ∧ is_Some (projects Sample.deposited
                                   !! Activity.projectId a).
Proof.
  split; [exact sample_deposited_reachable|].
  intros k a Hin.
  destruct (reachable_logSound Demo.W Sample.deposited
              sample_deposited_reachable k a Hin) as (Hk & _ & Hp).
  by split.
Defined.

(** A deposit on an unknown id. *)
Lemma failure_changes_nothing_witness :
  outcome (handle Demo.W (PostDeposit "nope") Sample.created).1 ≠ Success ∧
  (handle Demo.W (PostDeposit "nope") Sample.created).2 = Sample.created.
Proof.
  assert (outcome (handle Demo.W (PostDeposit "nope") Sample.created).1
            ≠ Success) as Hfail by (by vm_compute).
  split; [exact Hfail|].
  exact (failure_changes_nothing Demo.W (PostDeposit "nope") Sample.created
           Hfail).
Defined.

(** A deposit after a creation adds one entry to the log. *)
Lemma log_append_only_witness :
  neverRepeats Demo.W ∧ reachable Demo.W Sample.created ∧
  outcome (handle Demo.W (PostDeposit "uuid-0") Sample.created).1 = Success ∧
  ∃ a : Activity.t,
    activities (handle Demo.W (PostDeposit "uuid-0") Sample.created).2
      = (activities Sample.created ++ [(Activity.id a, a)])%list.
Proof.
  assert (outcome (handle Demo.W (PostDeposit "uuid-0") Sample.created).1
            = Success) as Hok by (by vm_compute).
  split; [exact demo_neverRepeats|]. split; [exact sample_created_reachable|].
  split; [exact Hok|].
  destruct (log_append_only Demo.W Sample.created (PostDeposit "uuid-0")
              demo_neverRepeats sample_created_reachable Hok) as [_ Happ].
  apply Happ. intros i parsed. discriminate.
Defined.

Lemma log_chronological_witness :
  neverRepeats Demo.W ∧ neverGoesBack Demo.W ∧
  reachable Demo.W Sample.deposited ∧
  Sorted notNewer (Js.mapValues (activities Sample.deposited)).
Proof.
  split; [exact demo_neverRepeats|]. split; [exact demo_neverGoesBack|].
  split; [exact sample_deposited_reachable|].
  exact (log_chronological Demo.W Sample.deposited demo_neverRepeats
           demo_neverGoesBack sample_deposited_reachable).
Defined.

(** One stored project, listed by the buyer's address and by another. *)
Lemma projects_by_email_witness :
  enumerates ["p1"] (Demo.store (Demo.project "false" "false" "held")) ∧
  (Demo.project "false" "false" "held"
     ∈ (ProjectQueries.getProjectsByEmail ["p1"] (Js.str "b@x.com")
          (Demo.store (Demo.project "false" "false" "held"))).1) ∧
  (Demo.project "false" "false" "held"
     ∉ (ProjectQueries.getProjectsByEmail ["p1"] (Js.str "c@x.com")
          (Demo.store (Demo.project "false" "false" "held"))).1).
Proof.
  assert (enumerates ["p1"] (Demo.store (Demo.project "false" "false" "held")))
    as Horder.
  { intros k.
    change (projects (Demo.store (Demo.project "false" "false" "held")))
      with ({[ "p1" := Demo.project "false" "false" "held" ]}
              : gmap string Project.t).
    rewrite list_elem_of_singleton, lookup_singleton.
    case_decide; split; done. }
  split; [exact Horder|].
  destruct (projects_by_email ["p1"] _ "b@x.com" Horder) as (Hb & _).
  destruct (projects_by_email ["p1"] _ "c@x.com" Horder) as (Hc & _).
  split.
  - apply Hb. split; [exists "p1"; by vm_compute|by left].
  - intros Hin. apply Hc in Hin as [_ [Hin|Hin]]; discriminate.
Defined.

(** Two users called alice: the name finds the first. *)
Lemma getUserByUsername_first_witness :
  (uuidAt Demo.W (UserStore.drawn (Users.createUser Demo.W Sample.alice
                                     UserStore.empty).2)
     ∉ (UserStore.users (Users.createUser Demo.W Sample.alice
                           UserStore.empty).2).*1) ∧
  InsertUser.username Sample.alice2 = "alice" ∧
  Users.getUserByUsername "alice"
    (Users.createUser Demo.W Sample.alice2
       (Users.createUser Demo.W Sample.alice UserStore.empty).2).2
    = Some (Users.createUser Demo.W Sample.alice UserStore.empty).1.
Proof.
  assert (uuidAt Demo.W (UserStore.drawn (Users.createUser Demo.W Sample.alice
                                    UserStore.empty).2)
    ∉ (UserStore.users (Users.createUser Demo.W Sample.alice
                          UserStore.empty).2).*1) as Hfresh.
  { apply (bool_decide_unpack _). by vm_compute. }
  split; [exact Hfresh|]. split; [reflexivity|].
  destruct (getUserByUsername_first Demo.W _ "alice" Sample.alice2 Hfresh
              eq_refl) as [Hfound _].
  by destruct (Hfound (Users.createUser Demo.W Sample.alice UserStore.empty).1
                 eq_refl) as (_ & _ & Hstill & _).
Defined.

Lemma createProject_route_witness :
  (uuidAt Demo.W (S (drawn initial)) ∉ (activities initial).*1) ∧
  ∃ a : Activity.t,
    activities (Routes.createProject Demo.W (Some Demo.bracket) initial).2
      = [(uuidAt Demo.W 1, a)] ∧
    Activity.projectId a = "uuid-0" ∧
    Activity.type a = "created".
Proof.
  assert (uuidAt Demo.W (S (drawn initial)) ∉ (activities initial).*1)
    as Hfresh by apply not_elem_of_nil.
  split; [exact Hfresh|].
  destruct (createProject_route Demo.W initial Demo.bracket Hfresh)
    as [(p & a & _ & Hp & _ & _ & Hact & Hpid & Htype & _) _].
  exists a. split_and!; [done| |done].
  by rewrite Hpid, Hp.
Defined.

(** After one creation, the activities of an id that is not there. *)
Lemma listActivities_unknown_id_witness :
  reachable Demo.W Sample.created ∧
  projects Sample.created !! "nope" = None ∧
  (Routes.listActivities "nope" Sample.created).1
    = Respond 200 (JsonActivities []).
Proof.
  assert (projects Sample.created !! "nope" = None) as Hid
    by (by vm_compute).
  split; [exact sample_created_reachable|]. split; [exact Hid|].
  by rewrite (listActivities_unknown_id Demo.W Sample.created "nope"
                sample_created_reachable Hid).
Defined.
